(** * Layer stores and undo tracker of the paint application

    A shallow embedding of [layer_store.py] (the three per-cell layer
    stores) and of [undo.py] (the undo tracker), together with the
    properties of the written specification that concern them.

    Python objects are mutated in place; here every method takes the
    object's state and returns the new one.  Methods that can raise return
    a [result]; the methods of the queue-backed and bitset-backed stores
    are written in a small state-and-error monad.  A raised exception ends
    the run: the state that a method leaves behind when it raises is not
    described. *)

From Stdlib Require Import String Ascii.
From Stdlib Require Import List ZArith NArith Arith Bool Lia.
From Stdlib Require Import Sorted Permutation.
Import ListNotations.

Set Implicit Arguments.
Set Warnings "-abstract-large-number".

(** ** Exceptions and the state-and-error monad *)

Inductive error : Type :=
| StackFull      (* ArrayStack.push on a full stack *)
| StackEmpty     (* ArrayStack.pop on an empty stack *)
| QueueFull      (* CircularQueue.append on a full queue *)
| QueueEmpty     (* CircularQueue.serve on an empty queue *)
| ListFull       (* ArraySortedList.add on a full list *)
| IndexError     (* ArraySortedList.__getitem__ out of range *)
| TypeError      (* BSet: item that is not a positive integer *)
| SetFull        (* BSet: item beyond the fixed universe *)
| KeyError.      (* BSet.remove of an absent item *)

Inductive result (A : Type) : Type :=
| Ok (a : A)
| Raise (e : error).

Arguments Ok {A} a.
Arguments Raise {A} e.

Definition M (S A : Type) : Type := S -> result (A * S).

Definition ret {S A : Type} (a : A) : M S A := fun s => Ok (a, s).

Definition bind {S A B : Type} (m : M S A) (k : A -> M S B) : M S B :=
  fun s => match m s with
           | Ok (a, s') => k a s'
           | Raise e => Raise e
           end.

Definition gets {S A : Type} (f : S -> A) : M S A := fun s => Ok (f s, s).

Declare Scope store_scope.
Delimit Scope store_scope with store.
Notation "x <- m ;; k" := (bind m (fun x => k))
  (at level 61, m at next level, right associativity) : store_scope.
Notation "m ;;; k" := (bind m (fun _ => k))
  (at level 61, right associativity) : store_scope.

(** [for _ in range(n): body], threading a loop-carried value. *)
Fixpoint for_range {S A : Type} (n : nat) (body : A -> M S A) (a : A) : M S A :=
  match n with
  | O => ret a
  | S n' => bind (body a) (for_range n' body)
  end.

(** A container operation called from a method: it raises or returns,
    and leaves the object alone. *)
Definition lift {S A : Type} (r : result A) : M S A :=
  fun s => match r with
           | Ok a => Ok (a, s)
           | Raise e => Raise e
           end.

(** [for item in l: body], threading a loop-carried value. *)
Fixpoint for_each {S A B : Type} (l : list B) (body : B -> A -> M S A) (a : A)
  : M S A :=
  match l with
  | [] => ret a
  | item :: rest => bind (body item a) (for_each rest body)
  end.

Local Open Scope store_scope.

(** ** Colours and layers *)

(** A colour is a tuple of three integers. *)
Definition Colour : Type := (Z * Z * Z)%type.

(** Modelled from the spec: the [Layer] class of [layer_util.py], which is
    not among the sources.  A layer is an immutable value with its
    0-based catalogue [index], its [name] and a pure [apply] transform
    from a colour, a timestamp and the coordinates to a colour. *)
Record Layer : Type := {
  index : nat;
  name : string;
  apply : Colour -> Z -> Z -> Z -> Colour
}.

(** Modelled from the spec: two layers are equal iff they are the same
    catalogue entry. *)
Definition layer_eqb (a b : Layer) : bool := index a =? index b.

(** ** The bounded containers *)

(** Modelled from the spec: the bounded stack [ArrayStack] of
    [data_structures/stack_adt.py], which is not among the sources: a
    fixed-capacity LIFO container that fails on overflow and underflow.
    [items] lists the elements from the top down. *)
Module ArrayStack.
Record t (T : Type) : Type := { items : list T; capacity : nat }.

Definition new (T : Type) (max_capacity : nat) : t T :=
  {| items := []; capacity := max_capacity |}.

Definition len {T} (s : t T) : nat := length (items s).
Definition is_empty {T} (s : t T) : bool := len s =? 0.
Definition is_full {T} (s : t T) : bool := len s =? capacity s.

Definition push {T} (item : T) (s : t T) : result (t T) :=
  if is_full s then Raise StackFull
  else Ok {| items := item :: items s; capacity := capacity s |}.

Definition pop {T} (s : t T) : result (T * t T) :=
  match items s with
  | [] => Raise StackEmpty
  | item :: rest => Ok (item, {| items := rest; capacity := capacity s |})
  end.

Definition clear {T} (s : t T) : t T :=
  {| items := []; capacity := capacity s |}.
End ArrayStack.

(** Modelled from the spec: the bounded queue [CircularQueue] of
    [data_structures/queue_adt.py], which is not among the sources: a
    fixed-capacity FIFO container that fails on overflow and underflow.
    [items] lists the elements from head to tail. *)
Module CircularQueue.
Record t (T : Type) : Type := { items : list T; capacity : nat }.

Definition new (T : Type) (max_capacity : nat) : t T :=
  {| items := []; capacity := max_capacity |}.

Definition len {T} (q : t T) : nat := length (items q).
Definition is_empty {T} (q : t T) : bool := len q =? 0.
Definition is_full {T} (q : t T) : bool := len q =? capacity q.

Definition append {T} (item : T) (q : t T) : result (t T) :=
  if is_full q then Raise QueueFull
  else Ok {| items := items q ++ [item]; capacity := capacity q |}.

Definition serve {T} (q : t T) : result (T * t T) :=
  match items q with
  | [] => Raise QueueEmpty
  | item :: rest => Ok (item, {| items := rest; capacity := capacity q |})
  end.
End CircularQueue.

(** Modelled from the spec: the bitset [BSet] of [data_structures/bset.py],
    which is not among the sources: a fixed-universe set of small positive
    integers, held as a bit vector whose bit [item - 1] tells whether
    [item] is a member.  Every operation fails on an item outside
    [1 .. capacity], and [remove] fails on an absent item. *)
Module BSet.
Record t : Type := { elems : N; capacity : nat }.

Definition new (max_capacity : nat) : t :=
  {| elems := 0%N; capacity := max_capacity |}.

(** The check that opens every operation. *)
Definition check (item : nat) (s : t) : option error :=
  if item <? 1 then Some TypeError
  else if capacity s <? item then Some SetFull
  else None.

Definition bit (item : nat) : N := N.of_nat (item - 1).

Definition contains (item : nat) (s : t) : result bool :=
  match check item s with
  | Some e => Raise e
  | None => Ok (N.testbit (elems s) (bit item))
  end.

Definition add (item : nat) (s : t) : result t :=
  match check item s with
  | Some e => Raise e
  | None => Ok {| elems := N.setbit (elems s) (bit item);
                  capacity := capacity s |}
  end.

Definition remove (item : nat) (s : t) : result t :=
  match check item s with
  | Some e => Raise e
  | None =>
      if N.testbit (elems s) (bit item)
      then Ok {| elems := N.clearbit (elems s) (bit item);
                 capacity := capacity s |}
      else Raise KeyError
  end.
End BSet.

(** Modelled from the spec: [ListItem] of
    [data_structures/sorted_list_adt.py], a value with its sort key. *)
Record ListItem : Type := { value : Layer; key : string }.

(** Modelled from the spec: the sorted list [ArraySortedList] of
    [data_structures/array_sorted_list.py], which is not among the
    sources: a capacity-bounded list that keeps its items ordered by key,
    with [add] and get-by-rank.  A new item goes in front of the first
    item whose key is not smaller. *)
Module ArraySortedList.
Record t : Type := { items : list ListItem; capacity : nat }.

Definition new (max_capacity : nat) : t :=
  {| items := []; capacity := max_capacity |}.

Definition len (l : t) : nat := length (items l).
Definition is_empty (l : t) : bool := len l =? 0.
Definition is_full (l : t) : bool := len l =? capacity l.

Fixpoint insert (item : ListItem) (l : list ListItem) : list ListItem :=
  match l with
  | [] => [item]
  | h :: rest =>
      if String.ltb (key h) (key item) then h :: insert item rest
      else item :: l
  end.

Definition add (item : ListItem) (l : t) : result t :=
  if is_full l then Raise ListFull
  else Ok {| items := insert item (items l); capacity := capacity l |}.

Definition getitem (l : t) (rank : nat) : result ListItem :=
  match nth_error (items l) rank with
  | Some item => Ok item
  | None => Raise IndexError
  end.
End ArraySortedList.

(** ** SetLayerStore *)

Module SetLayerStore.
(** [color] starts as the tuple [(None, None, None)], hence the optional
    components. *)
Record t : Type := {
  color : option Z * option Z * option Z;
  layer : option Layer;
  inverted : bool
}.

Definition init : t :=
  {| color := (None, None, None); layer := None; inverted := false |}.

Definition stored (c : Colour) : option Z * option Z * option Z :=
  let '(r, g, b) := c in (Some r, Some g, Some b).

(** [layer != self.layer], where either side may be [None]. *)
Definition differs (a b : option Layer) : bool :=
  match a, b with
  | None, None => false
  | Some x, Some y => negb (layer_eqb x y)
  | _, _ => true
  end.

(** The methods compare their [layer] argument with [None], so the
    argument is a reference that may be [None]; a caller that respects
    the annotation [layer: Layer] passes [Some l]. *)
Definition add (layer_arg : option Layer) (self : t) : bool * t :=
  if differs layer_arg (layer self) then
    (true, {| color := color self; layer := layer_arg;
              inverted := inverted self |})
  else (false, self).

Section WithInvert.
(** The [invert] layer of [layers.py], which is not among the sources. *)
Variable invert : Layer.

Definition get_color (start : Colour) (timestamp x y : Z) (self : t)
  : Colour * t :=
  let c :=
    if inverted self then
      match layer self with
      | Some l =>
          apply invert (apply l start timestamp x y) timestamp x y
      | None => apply invert start timestamp x y
      end
    else
      match layer self with
      | Some l => apply l start timestamp x y
      | None => start
      end in
  (c, {| color := stored c; layer := layer self;
         inverted := inverted self |}).
End WithInvert.

Definition erase (layer_arg : option Layer) (self : t) : bool * t :=
  match layer_arg with
  | Some _ =>
      (true, {| color := color self; layer := None;
                inverted := inverted self |})
  | None => (false, self)
  end.

Definition special (self : t) : t :=
  if negb (inverted self) then
    {| color := color self; layer := layer self; inverted := true |}
  else
    {| color := color self; layer := layer self; inverted := false |}.
End SetLayerStore.

(** ** AdditiveLayerStore *)

Module AdditiveLayerStore.
Record t : Type := {
  layer_queue : CircularQueue.t Layer;
  layer_stack : ArrayStack.t Layer
}.

(** [get_layers] is the catalogue array of [layer_util.py]; its slots
    that hold no layer yet are [None]. *)
Definition init (get_layers : list (option Layer)) : t :=
  {| layer_queue := CircularQueue.new Layer (length get_layers * 100);
     layer_stack := ArrayStack.new Layer (length get_layers * 100) |}.

Definition queue_len : M t nat :=
  gets (fun self => CircularQueue.len (layer_queue self)).

Definition queue_append (item : Layer) : M t unit :=
  fun self =>
    match CircularQueue.append item (layer_queue self) with
    | Ok q => Ok (tt, {| layer_queue := q; layer_stack := layer_stack self |})
    | Raise e => Raise e
    end.

Definition queue_serve : M t Layer :=
  fun self =>
    match CircularQueue.serve (layer_queue self) with
    | Ok (item, q) =>
        Ok (item, {| layer_queue := q; layer_stack := layer_stack self |})
    | Raise e => Raise e
    end.

Definition stack_len : M t nat :=
  gets (fun self => ArrayStack.len (layer_stack self)).

Definition stack_push (item : Layer) : M t unit :=
  fun self =>
    match ArrayStack.push item (layer_stack self) with
    | Ok st => Ok (tt, {| layer_queue := layer_queue self; layer_stack := st |})
    | Raise e => Raise e
    end.

Definition stack_pop : M t Layer :=
  fun self =>
    match ArrayStack.pop (layer_stack self) with
    | Ok (item, st) =>
        Ok (item, {| layer_queue := layer_queue self; layer_stack := st |})
    | Raise e => Raise e
    end.

Definition add (layer : Layer) : M t bool :=
  n <- queue_len ;;
  let added_queue_length := n + 1 in
  queue_append layer ;;;
  n' <- queue_len ;;
  if n' =? added_queue_length then ret true else ret false.

Definition get_color (start : Colour) (timestamp x y : Z) : M t Colour :=
  let color := start in
  empty <- gets (fun self => CircularQueue.is_empty (layer_queue self)) ;;
  if empty then ret color
  else
    n <- queue_len ;;
    for_range n
      (fun color =>
         current_layer <- queue_serve ;;
         let color := apply current_layer color timestamp x y in
         queue_append current_layer ;;;
         ret color)
      color.

Definition erase (layer : Layer) : M t bool :=
  n <- queue_len ;;
  let erased_queue_length := (Z.of_nat n - 1)%Z in
  queue_serve ;;;
  n' <- queue_len ;;
  if (Z.of_nat n' =? erased_queue_length)%Z then ret true else ret false.

Definition special : M t unit :=
  n <- queue_len ;;
  for_range n
    (fun _ => current_element <- queue_serve ;; stack_push current_element)
    tt ;;;
  m <- stack_len ;;
  for_range m
    (fun _ => reversed_element <- stack_pop ;; queue_append reversed_element)
    tt.
End AdditiveLayerStore.

(** ** SequenceLayerStore *)

Module SequenceLayerStore.
Record t : Type := {
  layer_set : BSet.t;
  is_specialized : bool;
  layer_list : list (option Layer)
}.

Definition init (get_layers : list (option Layer)) : t :=
  {| layer_set := BSet.new 9;
     is_specialized := false;
     layer_list := get_layers |}.

Definition with_layer_set (self : t) (bs : BSet.t) : t :=
  {| layer_set := bs;
     is_specialized := is_specialized self;
     layer_list := layer_list self |}.

(** [item in self.layer_set] *)
Definition set_contains (item : nat) : M t bool :=
  fun self =>
    match BSet.contains item (layer_set self) with
    | Ok b => Ok (b, self)
    | Raise e => Raise e
    end.

Definition set_add (item : nat) : M t unit :=
  fun self =>
    match BSet.add item (layer_set self) with
    | Ok bs => Ok (tt, with_layer_set self bs)
    | Raise e => Raise e
    end.

Definition set_remove (item : nat) : M t unit :=
  fun self =>
    match BSet.remove item (layer_set self) with
    | Ok bs => Ok (tt, with_layer_set self bs)
    | Raise e => Raise e
    end.

Definition add (layer : Layer) : M t bool :=
  let layer_index := index layer + 1 in
  present <- set_contains layer_index ;;
  if present then ret false
  else set_add layer_index ;;; ret true.

Definition get_color (start : Colour) (timestamp x y : Z) : M t Colour :=
  let color := start in
  layers <- gets layer_list ;;
  for_each layers
    (fun each_layer color =>
       match each_layer with
       | None => ret color
       | Some l =>
           present <- set_contains (index l + 1) ;;
           if present then ret (apply l color timestamp x y)
           else ret color
       end)
    color.

Definition erase (layer : Layer) : M t bool :=
  let layer_index := index layer + 1 in
  present <- set_contains layer_index ;;
  if negb present then ret false
  else set_remove layer_index ;;; ret true.

Definition special : M t unit :=
  let layer_sortedList := ArraySortedList.new 10000 in
  layers <- gets layer_list ;;
  layer_sortedList <-
    for_each layers
      (fun each_layer sl =>
         match each_layer with
         | None => ret sl
         | Some l =>
             present <- set_contains (index l + 1) ;;
             if present then
               let item := {| value := l; key := name l |} in
               lift (ArraySortedList.add item sl)
             else ret sl
         end)
      layer_sortedList ;;
  if negb (ArraySortedList.is_empty layer_sortedList) then
    let n := ArraySortedList.len layer_sortedList in
    let chosen_index := if n mod 2 =? 0 then n / 2 - 1 else n / 2 in
    item <- lift (ArraySortedList.getitem layer_sortedList chosen_index) ;;
    let removed_item_index := index (value item) in
    set_remove (removed_item_index + 1)
  else ret tt.
End SequenceLayerStore.

(** ** UndoTracker *)

Module UndoTracker.
Section WithActions.
(** [PaintAction] and [Grid] come from [action.py] and [grid.py]; the
    tracker only calls [undo_apply] and [redo_apply], which mutate the
    grid and may raise. *)
Variables PaintAction Grid : Type.
Variable undo_apply : PaintAction -> Grid -> result Grid.
Variable redo_apply : PaintAction -> Grid -> result Grid.

(** [history_stack] and [undo_stack] are assigned in the class body:
    there is one pair of stacks for the class. *)
Record class_attrs : Type := {
  history_stack : ArrayStack.t PaintAction;
  undo_stack : ArrayStack.t PaintAction
}.

Definition class_body : class_attrs :=
  {| history_stack := ArrayStack.new PaintAction 10000;
     undo_stack := ArrayStack.new PaintAction 10000 |}.

(** The class attributes given by the contents and capacities of the
    two stacks. *)
Definition stacks (history : list PaintAction) (hcap : nat)
  (undone : list PaintAction) (ucap : nat) : class_attrs :=
  {| history_stack :=
       {| ArrayStack.items := history; ArrayStack.capacity := hcap |};
     undo_stack :=
       {| ArrayStack.items := undone; ArrayStack.capacity := ucap |} |}.

(** An instance has its identity and nothing else: the class has no
    [__init__] and no method assigns [self.history_stack] or
    [self.undo_stack], so both always resolve to the class
    attributes. *)
Record t : Type := { ident : nat }.

Definition history_push (item : PaintAction) : M class_attrs unit :=
  fun c =>
    match ArrayStack.push item (history_stack c) with
    | Ok st => Ok (tt, {| history_stack := st; undo_stack := undo_stack c |})
    | Raise e => Raise e
    end.

Definition history_pop : M class_attrs PaintAction :=
  fun c =>
    match ArrayStack.pop (history_stack c) with
    | Ok (item, st) =>
        Ok (item, {| history_stack := st; undo_stack := undo_stack c |})
    | Raise e => Raise e
    end.

Definition undo_push (item : PaintAction) : M class_attrs unit :=
  fun c =>
    match ArrayStack.push item (undo_stack c) with
    | Ok st => Ok (tt, {| history_stack := history_stack c; undo_stack := st |})
    | Raise e => Raise e
    end.

Definition undo_pop : M class_attrs PaintAction :=
  fun c =>
    match ArrayStack.pop (undo_stack c) with
    | Ok (item, st) =>
        Ok (item, {| history_stack := history_stack c; undo_stack := st |})
    | Raise e => Raise e
    end.

Definition undo_clear : M class_attrs unit :=
  fun c =>
    Ok (tt, {| history_stack := history_stack c;
               undo_stack := ArrayStack.clear (undo_stack c) |}).

Definition add_action (self : t) (action : PaintAction)
  : M class_attrs unit :=
  full <- gets (fun c => ArrayStack.is_full (history_stack c)) ;;
  (if full then ret tt else ret tt) ;;;
  empty <- gets (fun c => ArrayStack.is_empty (undo_stack c)) ;;
  (if negb empty then
     undo_clear ;;;
     n <- gets (fun c => ArrayStack.len (undo_stack c)) ;;
     for_range n (fun _ => history_pop ;;; ret tt) tt
   else ret tt) ;;;
  history_push action.

(** The grid is mutated in place; the new grid is returned next to the
    method's own return value. *)
Definition undo (self : t) (grid : Grid)
  : M class_attrs (option PaintAction * Grid) :=
  empty <- gets (fun c => ArrayStack.is_empty (history_stack c)) ;;
  if empty then ret (None, grid)
  else
    undid_action <- history_pop ;;
    undo_push undid_action ;;;
    grid' <- lift (undo_apply undid_action grid) ;;
    ret (Some undid_action, grid').

Definition redo (self : t) (grid : Grid)
  : M class_attrs (option PaintAction * Grid) :=
  empty <- gets (fun c => ArrayStack.is_empty (undo_stack c)) ;;
  if empty then ret (None, grid)
  else
    redid_action <- undo_pop ;;
    history_push redid_action ;;;
    grid' <- lift (redo_apply redid_action grid) ;;
    ret (Some redid_action, grid').
End WithActions.
End UndoTracker.

(** ** ReplayTracker *)

Module ReplayTracker.
Section WithActions.
(** As for the undo tracker, [PaintAction] and [Grid] are used only
    through [undo_apply] and [redo_apply]. *)
Variables PaintAction Grid : Type.
Variable undo_apply : PaintAction -> Grid -> result Grid.
Variable redo_apply : PaintAction -> Grid -> result Grid.

Record ActionBoolean : Type := { action : PaintAction; is_undo : bool }.

Definition get_action (self : ActionBoolean) : PaintAction := action self.
Definition get_is_undo (self : ActionBoolean) : bool := is_undo self.

Record t : Type := { replay_queue : CircularQueue.t ActionBoolean }.

Definition init : t :=
  {| replay_queue := CircularQueue.new ActionBoolean 10000 |}.

Definition start_replay : M t unit := ret tt.

(** [is_undo] defaults to [False] at the call sites that omit it. *)
Definition add_action (action_arg : PaintAction) (is_undo_arg : bool)
  : M t unit :=
  let action_obj := {| action := action_arg; is_undo := is_undo_arg |} in
  fun self =>
    match CircularQueue.append action_obj (replay_queue self) with
    | Ok q => Ok (tt, {| replay_queue := q |})
    | Raise e => Raise e
    end.

Definition queue_serve : M t ActionBoolean :=
  fun self =>
    match CircularQueue.serve (replay_queue self) with
    | Ok (item, q) => Ok (item, {| replay_queue := q |})
    | Raise e => Raise e
    end.

(** The grid is mutated in place; the new grid is returned next to the
    method's own return value. *)
Definition play_next_action (grid : Grid) : M t (bool * Grid) :=
  empty <- gets (fun self => CircularQueue.is_empty (replay_queue self)) ;;
  if empty then ret (true, grid)
  else
    each_action_obj <- queue_serve ;;
    grid' <- lift (if get_is_undo each_action_obj
                   then undo_apply (get_action each_action_obj) grid
                   else redo_apply (get_action each_action_obj) grid) ;;
    ret (false, grid').
End WithActions.
End ReplayTracker.

(** ** Grid *)

(** A grid square holds one of the three layer stores. *)
Inductive LayerStore : Type :=
| SetStore (s : SetLayerStore.t)
| AdditiveStore (s : AdditiveLayerStore.t)
| SequenceStore (s : SequenceLayerStore.t).

Module Grid.
Definition DRAW_STYLE_SET : string := "SET".
Definition DRAW_STYLE_ADD : string := "ADD".
Definition DRAW_STYLE_SEQUENCE : string := "SEQUENCE".
Definition DRAW_STYLE_OPTIONS : list string :=
  [DRAW_STYLE_SET; DRAW_STYLE_ADD; DRAW_STYLE_SEQUENCE].

Definition DEFAULT_BRUSH_SIZE : Z := 2.
Definition MAX_BRUSH : Z := 5.
Definition MIN_BRUSH : Z := 0.

(** The squares are the slots of an array of arrays; a slot that was never
    assigned holds [None]. *)
Record t : Type := {
  draw_style : string;
  x_size : nat;
  y_size : nat;
  grid : list (list (option LayerStore));
  brush_size : Z
}.

(** What the body of the two nested loops of [__init__] leaves in a
    square. *)
Definition new_square (get_layers : list (option Layer)) (style : string)
  : option LayerStore :=
  if String.eqb style (nth 0 DRAW_STYLE_OPTIONS EmptyString) then
    Some (SetStore SetLayerStore.init)
  else if String.eqb style (nth 1 DRAW_STYLE_OPTIONS EmptyString) then
    Some (AdditiveStore (AdditiveLayerStore.init get_layers))
  else if String.eqb style (nth 2 DRAW_STYLE_OPTIONS EmptyString) then
    Some (SequenceStore (SequenceLayerStore.init get_layers))
  else None.

(** [__init__]: [x] rows of [y] squares, each filled by the loops over
    [range(x)] and [range(y)]. *)
Definition init (get_layers : list (option Layer)) (style : string)
  (x y : nat) : t :=
  {| draw_style := style;
     x_size := x;
     y_size := y;
     grid := map (fun row => map (fun column => new_square get_layers style)
                               (seq 0 y))
               (seq 0 x);
     brush_size := DEFAULT_BRUSH_SIZE |}.

Definition with_brush_size (self : t) (b : Z) : t :=
  {| draw_style := draw_style self; x_size := x_size self;
     y_size := y_size self; grid := grid self; brush_size := b |}.

Definition increase_brush_size (self : t) : t :=
  if (brush_size self <? MAX_BRUSH)%Z
  then with_brush_size self (brush_size self + 1)%Z
  else self.

Definition decrease_brush_size (self : t) : t :=
  if (brush_size self >? MIN_BRUSH)%Z
  then with_brush_size self (brush_size self - 1)%Z
  else self.

(** What stops [special]: a store's own exception, or a square that holds
    [None] and so has no [special] method. *)
Inductive failure : Type :=
| StoreRaised (e : error)
| NoStore.

(** [column.special()], dispatched on the class of the store. *)
Definition square_special (column : option LayerStore)
  : option LayerStore + failure :=
  match column with
  | None => inr NoStore
  | Some (SetStore s) => inl (Some (SetStore (SetLayerStore.special s)))
  | Some (AdditiveStore s) =>
      match AdditiveLayerStore.special s with
      | Ok (_, s') => inl (Some (AdditiveStore s'))
      | Raise e => inr (StoreRaised e)
      end
  | Some (SequenceStore s) =>
      match SequenceLayerStore.special s with
      | Ok (_, s') => inl (Some (SequenceStore s'))
      | Raise e => inr (StoreRaised e)
      end
  end.

(** [for column in row: column.special()] *)
Fixpoint row_special (row : list (option LayerStore))
  : list (option LayerStore) + failure :=
  match row with
  | [] => inl []
  | column :: rest =>
      match square_special column with
      | inl column' =>
          match row_special rest with
          | inl rest' => inl (column' :: rest')
          | inr f => inr f
          end
      | inr f => inr f
      end
  end.

(** [for row in self.grid: ...] *)
Fixpoint rows_special (rows : list (list (option LayerStore)))
  : list (list (option LayerStore)) + failure :=
  match rows with
  | [] => inl []
  | row :: rest =>
      match row_special row with
      | inl row' =>
          match rows_special rest with
          | inl rest' => inl (row' :: rest')
          | inr f => inr f
          end
      | inr f => inr f
      end
  end.

Definition special (self : t) : t + failure :=
  match rows_special (grid self) with
  | inl rows =>
      inl {| draw_style := draw_style self; x_size := x_size self;
             y_size := y_size self; grid := rows;
             brush_size := brush_size self |}
  | inr f => inr f
  end.
End Grid.

(** ** Vocabulary of the statements *)

(** The layers of a catalogue, without its empty slots. *)
Fixpoint registered (layers : list (option Layer)) : list Layer :=
  match layers with
  | [] => []
  | None :: rest => registered rest
  | Some l :: rest => l :: registered rest
  end.

(** Every layer of the catalogue has its item [index + 1] inside a bitset
    universe of the given size. *)
Definition fits (universe : nat) (layers : list (option Layer)) : bool :=
  forallb (fun l => index l <? universe) (registered layers).

(** The catalogue holds, from position [i] on, layers whose index is their
    position. *)
Fixpoint indexed_from (i : nat) (layers : list (option Layer)) : bool :=
  match layers with
  | [] => true
  | None :: rest => indexed_from (S i) rest
  | Some l :: rest => (index l =? i) && indexed_from (S i) rest
  end.

(** The left fold of the layers' transforms over a start colour. *)
Definition compose (layers : list Layer) (start : Colour) (timestamp x y : Z)
  : Colour :=
  fold_left (fun color l => apply l color timestamp x y) layers start.

(** The order of the sorted list's keys. *)
Definition key_le (a b : ListItem) : Prop := String.leb (key a) (key b) = true.

Module Sequence.
Import SequenceLayerStore.

(** Membership of a catalogue index in the store. *)
Definition member (i : nat) (self : t) : bool :=
  N.testbit (BSet.elems (layer_set self)) (N.of_nat i).

(** The member layers, in catalogue order. *)
Definition members (self : t) : list Layer :=
  filter (fun l => member (index l) self) (registered (layer_list self)).

Inductive call : Type :=
| Add (layer : Layer)
| Erase (layer : Layer).

(** The list item that [special] makes of a layer. *)
Definition item_of (l : Layer) : ListItem := {| value := l; key := name l |}.

(** The member layers as [special] ranks them: inserted one by one, in
    catalogue order, into an empty sorted list. *)
Definition ranked (self : t) : list ListItem :=
  fold_left (fun acc l => ArraySortedList.insert (item_of l) acc)
    (members self) [].

(** The rank that [special] picks among [n] members. *)
Definition median_rank (n : nat) : nat :=
  if Nat.even n then n / 2 - 1 else n / 2.

(** A sequence of [add] and [erase] calls, none of which raises. *)
Fixpoint run (calls : list call) (self : t) : result t :=
  match calls with
  | [] => Ok self
  | Add l :: rest =>
      match add l self with
      | Ok (_, self') => run rest self'
      | Raise e => Raise e
      end
  | Erase l :: rest =>
      match erase l self with
      | Ok (_, self') => run rest self'
      | Raise e => Raise e
      end
  end.
End Sequence.

Module Additive.
Import AdditiveLayerStore.

(** A store given by the contents and capacities of its queue and of
    its stack. *)
Definition store (q : list Layer) (qcap : nat) (st : list Layer) (scap : nat)
  : t :=
  {| layer_queue := {| CircularQueue.items := q; CircularQueue.capacity := qcap |};
     layer_stack := {| ArrayStack.items := st; ArrayStack.capacity := scap |} |}.

(** The held layers from head to tail. *)
Definition held (self : t) : list Layer :=
  CircularQueue.items (layer_queue self).

(** [add] called on each layer of a list in turn. *)
Fixpoint add_all (layers : list Layer) : M t unit :=
  match layers with
  | [] => ret tt
  | l :: rest => add l ;;; add_all rest
  end.

(** The states a store goes through from its creation, whatever methods
    are called on it. *)
Inductive reachable (get_layers : list (option Layer)) : t -> Prop :=
| reach_init : reachable get_layers (init get_layers)
| reach_add : forall layer self b self',
    reachable get_layers self -> add layer self = Ok (b, self') ->
    reachable get_layers self'
| reach_erase : forall layer self b self',
    reachable get_layers self -> erase layer self = Ok (b, self') ->
    reachable get_layers self'
| reach_special : forall self self',
    reachable get_layers self -> special self = Ok (tt, self') ->
    reachable get_layers self'
| reach_get_color : forall start timestamp x y self c self',
    reachable get_layers self ->
    get_color start timestamp x y self = Ok (c, self') ->
    reachable get_layers self'.

(** What holds of every store between two method calls: the scratch
    stack is empty, both containers have the capacity given at creation,
    and the queue is within it. *)
Definition settled (get_layers : list (option Layer)) (self : t) : Prop :=
  exists q,
    self = store q (length get_layers * 100) [] (length get_layers * 100) /\
    length q <= length get_layers * 100.
End Additive.

(** Concrete layers for the examples. *)
Definition identity_apply : Colour -> Z -> Z -> Z -> Colour :=
  fun c _ _ _ => c.

Definition invert_apply : Colour -> Z -> Z -> Z -> Colour :=
  fun c _ _ _ => let '(r, g, b) := c in (255 - r, 255 - g, 255 - b)%Z.

Definition red_apply : Colour -> Z -> Z -> Z -> Colour :=
  fun _ _ _ _ => (255, 0, 0)%Z.

Definition darken_apply : Colour -> Z -> Z -> Z -> Colour :=
  fun c _ _ _ => let '(r, g, b) := c in (r / 2, g / 2, b / 2)%Z.

Definition named (i : nat) (n : string) : Layer :=
  {| index := i; name := n; apply := identity_apply |}.

Definition apple : Layer := named 0 "apple".
Definition banana : Layer := named 1 "banana".
Definition cherry : Layer := named 2 "cherry".
Definition date : Layer := named 3 "date".
Definition egg : Layer := named 4 "egg".

Definition fruit_catalogue : list (option Layer) :=
  [Some apple; Some banana; Some cherry; Some date; Some egg; None; None].

(** A new store over the fruit catalogue after the given calls; a call
    that raises leaves the store as it was. *)
Definition fruit_store (calls : list Sequence.call) : SequenceLayerStore.t :=
  match Sequence.run calls (SequenceLayerStore.init fruit_catalogue) with
  | Ok self => self
  | Raise _ => SequenceLayerStore.init fruit_catalogue
  end.

Definition red_layer : Layer :=
  {| index := 0; name := "red"; apply := red_apply |}.
Definition darken_layer : Layer :=
  {| index := 1; name := "darken"; apply := darken_apply |}.
Definition invert_layer : Layer :=
  {| index := 2; name := "invert"; apply := invert_apply |}.

Definition paint_catalogue : list (option Layer) :=
  [Some red_layer; Some darken_layer; Some invert_layer; None].

(** ** Vocabulary of the further statements *)

Module SetStoreCalls.
Import SetLayerStore.

(** The store with its [inverted] flag set as given. *)
Definition with_inverted (b : bool) (self : t) : t :=
  {| color := color self; layer := layer self; inverted := b |}.
End SetStoreCalls.

Module AdditiveCalls.
Import AdditiveLayerStore.

(** [erase] called [n] times, with any layer as argument. *)
Fixpoint erase_times (n : nat) (layer : Layer) : M t unit :=
  match n with
  | O => ret tt
  | S n' => erase layer ;;; erase_times n' layer
  end.
End AdditiveCalls.

Module SequenceCalls.
Import SequenceLayerStore.

(** [special] called [n] times. *)
Fixpoint special_times (n : nat) : M t unit :=
  match n with
  | O => ret tt
  | S n' => special ;;; special_times n'
  end.
End SequenceCalls.

Module UndoCalls.
Import UndoTracker.

(** The actions in the order they were done: the history from its bottom
    up, then the undone actions from the top of the undo stack down. *)
Definition timeline {PaintAction : Type} (cls : class_attrs PaintAction)
  : list PaintAction :=
  rev (ArrayStack.items (history_stack cls)) ++
  ArrayStack.items (undo_stack cls).
End UndoCalls.

Module ReplayCalls.
Section WithActions.
Variables PaintAction Grid : Type.
Variable undo_apply : PaintAction -> Grid -> result Grid.
Variable redo_apply : PaintAction -> Grid -> result Grid.

(** The queue entry that [add_action] makes of an action and its flag. *)
Definition entry_of (e : PaintAction * bool)
  : ReplayTracker.ActionBoolean PaintAction :=
  {| ReplayTracker.action := fst e; ReplayTracker.is_undo := snd e |}.

(** A tracker given by the contents and the capacity of its queue. *)
Definition tracker (q : list (ReplayTracker.ActionBoolean PaintAction))
  (cap : nat) : ReplayTracker.t PaintAction :=
  {| ReplayTracker.replay_queue :=
       {| CircularQueue.items := q; CircularQueue.capacity := cap |} |}.

(** Recording a list of actions, each with its undo flag. *)
Fixpoint record (entries : list (PaintAction * bool))
  : M (ReplayTracker.t PaintAction) unit :=
  match entries with
  | [] => ret tt
  | (a, u) :: rest => ReplayTracker.add_action a u ;;; record rest
  end.

(** The grid after the entries were applied to it in list order. *)
Fixpoint replayed (entries : list (PaintAction * bool)) (grid : Grid)
  : result Grid :=
  match entries with
  | [] => Ok grid
  | (a, u) :: rest =>
      match (if u then undo_apply a grid else redo_apply a grid) with
      | Ok grid' => replayed rest grid'
      | Raise e => Raise e
      end
  end.

(** [play_next_action] called [n] times; the flags returned, in order. *)
Fixpoint play_times (n : nat) (grid : Grid)
  : M (ReplayTracker.t PaintAction) (list bool * Grid) :=
  match n with
  | O => ret ([], grid)
  | S n' =>
      r <- ReplayTracker.play_next_action undo_apply redo_apply grid ;;
      rs <- play_times n' (snd r) ;;
      ret (fst r :: fst rs, snd rs)
  end.
End WithActions.
End ReplayCalls.

Module GridCalls.
Inductive brush_call : Type := Increase | Decrease.

Definition brush (c : brush_call) (g : Grid.t) : Grid.t :=
  match c with
  | Increase => Grid.increase_brush_size g
  | Decrease => Grid.decrease_brush_size g
  end.

(** A sequence of brush-size calls, in list order. *)
Definition brush_all (calls : list brush_call) (g : Grid.t) : Grid.t :=
  fold_left (fun g c => brush c g) calls g.

(** Every square of the grid holds a Set store. *)
Definition all_set (g : Grid.t) : bool :=
  forallb (forallb (fun square =>
                      match square with
                      | Some (SetStore _) => true
                      | _ => false
                      end))
    (Grid.grid g).

(** The grid with other squares. *)
Definition with_grid (g : Grid.t) (rows : list (list (option LayerStore)))
  : Grid.t :=
  {| Grid.draw_style := Grid.draw_style g; Grid.x_size := Grid.x_size g;
     Grid.y_size := Grid.y_size g; Grid.grid := rows;
     Grid.brush_size := Grid.brush_size g |}.

(** The brush size lies between [MIN_BRUSH] and [MAX_BRUSH]. *)
Definition brush_in_range (g : Grid.t) : Prop :=
  (Grid.MIN_BRUSH <= Grid.brush_size g <= Grid.MAX_BRUSH)%Z.

(** [SetLayerStore.special] on every square that holds a Set store. *)
Definition toggle_square (square : option LayerStore) : option LayerStore :=
  match square with
  | Some (SetStore s) => Some (SetStore (SetLayerStore.special s))
  | other => other
  end.
End GridCalls.

(** * Properties *)

(** ** SetLayerStore *)

Section SetLayerStoreProperties.
Import SetLayerStore.
Variable invert : Layer.

Lemma special_special : forall self, special (special self) = self.
Proof.
  intros [c l [|]]; unfold special; simpl; reflexivity.
Qed.

Lemma special_toggles : forall self,
  inverted (special self) = negb (inverted self) /\
  layer (special self) = layer self /\
  color (special self) = color self.
Proof.
  intros [c l [|]]; unfold special; simpl; repeat split; reflexivity.
Qed.

(** C9: [special] toggles the [inverted] flag and leaves the other fields
    alone; calling it twice gives back the very same store, so every
    [get_color] call returns what it returned before the two calls. *)
Theorem set_special_period_two : forall self start timestamp x y,
  inverted (special self) = negb (inverted self) /\
  layer (special self) = layer self /\
  special (special self) = self /\
  fst (get_color invert start timestamp x y (special (special self))) =
  fst (get_color invert start timestamp x y self).
Proof.
  intros self start timestamp x y.
  destruct (special_toggles self) as (Hi & Hl & _).
  rewrite special_special. repeat split; assumption.
Qed.

(** C2, as amended: [get_color] leaves the [layer] and [inverted] fields
    unchanged and stores the colour it returns in the [color] field,
    which it never reads: the colour returned is the same whatever that
    field held, and a second call with the same arguments returns the same
    colour and leaves the store as the first call left it. *)
Theorem set_get_color_amended : forall self start timestamp x y held_color,
  let (c, self') := get_color invert start timestamp x y self in
  layer self' = layer self /\
  inverted self' = inverted self /\
  color self' = stored c /\
  fst (get_color invert start timestamp x y
         {| color := held_color; layer := layer self;
            inverted := inverted self |}) = c /\
  get_color invert start timestamp x y self' = (c, self').
Proof.
  intros self start timestamp x y held_color.
  unfold get_color. simpl. repeat split; reflexivity.
Qed.
End SetLayerStoreProperties.

(** C2, as stated, fails: on a new store the first [get_color] call
    overwrites the [color] field, which held [(None, None, None)]. *)
Lemma set_get_color_writes_color_field :
  snd (SetLayerStore.get_color invert_layer (10, 20, 30)%Z 0 0 0
         SetLayerStore.init) <> SetLayerStore.init.
Proof. unfold SetLayerStore.get_color, SetLayerStore.init. simpl. discriminate. Qed.

(** C1: on a new store, which holds no layer, [erase] called with a layer
    returns true, although nothing is there to clear and the store stays as
    it was. *)
Theorem set_erase_on_empty_returns_true : forall l : Layer,
  SetLayerStore.layer SetLayerStore.init = None /\
  SetLayerStore.erase (Some l) SetLayerStore.init = (true, SetLayerStore.init).
Proof. intro l. split; reflexivity. Qed.

(** ** AdditiveLayerStore *)

Ltac project_store :=
  cbn [AdditiveLayerStore.layer_queue AdditiveLayerStore.layer_stack
       CircularQueue.items CircularQueue.capacity
       ArrayStack.items ArrayStack.capacity].

Ltac unfold_store :=
  unfold AdditiveLayerStore.queue_len, AdditiveLayerStore.queue_append,
    AdditiveLayerStore.queue_serve, AdditiveLayerStore.stack_len,
    AdditiveLayerStore.stack_push, AdditiveLayerStore.stack_pop,
    bind, ret, gets, lift,
    CircularQueue.append, CircularQueue.serve, CircularQueue.is_full,
    CircularQueue.is_empty, CircularQueue.len,
    ArrayStack.push, ArrayStack.pop, ArrayStack.is_full,
    ArrayStack.is_empty, ArrayStack.len;
  project_store.

Section AdditiveLayerStoreProperties.
Import AdditiveLayerStore Additive.

Lemma queue_serve_store : forall l q qcap st scap,
  queue_serve (store (l :: q) qcap st scap) = Ok (l, store q qcap st scap).
Proof. reflexivity. Qed.

Lemma queue_append_store : forall l q qcap st scap,
  queue_append l (store q qcap st scap) =
  if length q =? qcap then Raise QueueFull
  else Ok (tt, store (q ++ [l]) qcap st scap).
Proof.
  intros. unfold store. unfold_store.
  destruct (length q =? qcap); reflexivity.
Qed.

Lemma stack_pop_store : forall l q qcap st scap,
  stack_pop (store q qcap (l :: st) scap) = Ok (l, store q qcap st scap).
Proof. reflexivity. Qed.

Lemma stack_push_store : forall l q qcap st scap,
  stack_push l (store q qcap st scap) =
  if length st =? scap then Raise StackFull
  else Ok (tt, store q qcap (l :: st) scap).
Proof.
  intros. unfold store. unfold_store.
  destruct (length st =? scap); reflexivity.
Qed.

Lemma add_store : forall layer q qcap st scap,
  add layer (store q qcap st scap) =
  if length q =? qcap then Raise QueueFull
  else Ok (true, store (q ++ [layer]) qcap st scap).
Proof.
  intros. unfold add, store. unfold_store.
  destruct (length q =? qcap); [reflexivity|]. project_store.
  rewrite length_app. simpl. rewrite Nat.eqb_refl. reflexivity.
Qed.

Lemma erase_store : forall layer q qcap st scap,
  erase layer (store q qcap st scap) =
  match q with
  | [] => Raise QueueEmpty
  | _ :: rest => Ok (true, store rest qcap st scap)
  end.
Proof.
  intros. unfold erase, store. unfold_store.
  destruct q as [|h rest]; [reflexivity|]. project_store. cbn [length].
  replace (Z.of_nat (length rest) =? Z.of_nat (S (length rest)) - 1)%Z
    with true by (symmetry; apply Z.eqb_eq; lia).
  reflexivity.
Qed.

(** The loop of [get_color]: serving and re-appending the first [n]
    layers folds them over the colour and rotates the queue. *)
Lemma rotate_loop : forall timestamp x y front back color qcap st scap,
  length (front ++ back) <= qcap ->
  for_range (length front)
    (fun color =>
       current_layer <- queue_serve ;;
       let color := apply current_layer color timestamp x y in
       queue_append current_layer ;;;
       ret color)
    color (store (front ++ back) qcap st scap) =
  Ok (compose front color timestamp x y, store (back ++ front) qcap st scap).
Proof.
  intros timestamp x y front.
  induction front as [|l front IH]; intros back color qcap st scap Hlen.
  - simpl. rewrite app_nil_r. reflexivity.
  - simpl in Hlen. simpl for_range. unfold bind at 1. unfold bind at 1.
    simpl app. rewrite queue_serve_store.
    unfold bind at 1. rewrite queue_append_store.
    destruct (length (front ++ back) =? qcap) eqn:E.
    { apply Nat.eqb_eq in E. lia. }
    unfold ret at 1. rewrite <- app_assoc.
    rewrite IH.
    + unfold compose. simpl. rewrite <- app_assoc. reflexivity.
    + rewrite length_app in *. rewrite length_app. simpl. lia.
Qed.

Lemma get_color_store : forall start timestamp x y q qcap st scap,
  length q <= qcap ->
  get_color start timestamp x y (store q qcap st scap) =
  Ok (compose q start timestamp x y, store q qcap st scap).
Proof.
  intros. unfold get_color.
  unfold bind at 1. unfold gets at 1.
  unfold CircularQueue.is_empty, CircularQueue.len. simpl.
  destruct q as [|l q].
  - reflexivity.
  - simpl Nat.eqb. cbv iota.
    unfold bind at 1. unfold queue_len, gets. unfold CircularQueue.len. simpl CircularQueue.items.
    pose proof (@rotate_loop timestamp x y (l :: q) [] start qcap st scap) as R.
    rewrite app_nil_r in R. simpl app in R. apply R. assumption.
Qed.

Lemma add_all_store : forall layers q qcap st scap,
  length q + length layers <= qcap ->
  add_all layers (store q qcap st scap) =
  Ok (tt, store (q ++ layers) qcap st scap).
Proof.
  induction layers as [|l layers IH]; intros q qcap st scap Hlen.
  - simpl. rewrite app_nil_r. reflexivity.
  - simpl in Hlen. simpl add_all. unfold bind at 1. rewrite add_store.
    destruct (length q =? qcap) eqn:E.
    { apply Nat.eqb_eq in E. lia. }
    rewrite IH.
    + rewrite <- app_assoc. reflexivity.
    + rewrite length_app. simpl. lia.
Qed.

(** The first loop of [special]: the served layers pile up on the stack,
    the last one served on top. *)
Lemma drain_loop : forall front back qcap st scap,
  length st + length front <= scap ->
  for_range (length front)
    (fun _ : unit =>
       current_element <- queue_serve ;; stack_push current_element)
    tt (store (front ++ back) qcap st scap) =
  Ok (tt, store back qcap (rev front ++ st) scap).
Proof.
  induction front as [|l front IH]; intros back qcap st scap Hlen.
  - reflexivity.
  - simpl in Hlen. simpl for_range. unfold bind at 1. unfold bind at 1.
    simpl app. rewrite queue_serve_store, stack_push_store.
    destruct (length st =? scap) eqn:E.
    { apply Nat.eqb_eq in E. lia. }
    rewrite IH by (simpl; lia).
    simpl rev. rewrite <- app_assoc. reflexivity.
Qed.

(** The second loop of [special]: the popped layers join the tail of the
    queue, the top of the stack first. *)
Lemma refill_loop : forall top rest q qcap scap,
  length q + length top <= qcap ->
  for_range (length top)
    (fun _ : unit =>
       reversed_element <- stack_pop ;; queue_append reversed_element)
    tt (store q qcap (top ++ rest) scap) =
  Ok (tt, store (q ++ top) qcap rest scap).
Proof.
  induction top as [|l top IH]; intros rest q qcap scap Hlen.
  - simpl. rewrite app_nil_r. reflexivity.
  - simpl in Hlen. simpl for_range. unfold bind at 1. unfold bind at 1.
    simpl app. rewrite stack_pop_store, queue_append_store.
    destruct (length q =? qcap) eqn:E.
    { apply Nat.eqb_eq in E. lia. }
    rewrite IH by (rewrite length_app; simpl; lia).
    rewrite <- app_assoc. reflexivity.
Qed.

Lemma special_store : forall q qcap scap,
  length q <= qcap -> length q <= scap ->
  special (store q qcap [] scap) = Ok (tt, store (rev q) qcap [] scap).
Proof.
  intros q qcap scap Hq Hs. unfold special.
  unfold bind at 1. unfold queue_len at 1, gets at 1.
  unfold CircularQueue.len. cbn [store layer_queue CircularQueue.items].
  unfold bind at 1.
  pose proof (@drain_loop q [] qcap [] scap) as D.
  rewrite !app_nil_r in D. rewrite D by (simpl; lia).
  unfold bind at 1. unfold stack_len at 1, gets at 1.
  unfold ArrayStack.len. cbn [layer_stack ArrayStack.items].
  pose proof (@refill_loop (rev q) [] [] qcap scap) as R.
  rewrite !app_nil_r in R. simpl app in R.
  apply R. rewrite length_rev. simpl. lia.
Qed.

Lemma reachable_settled : forall get_layers self,
  reachable get_layers self -> settled get_layers self.
Proof.
  intros get_layers self H.
  induction H as [| layer self b self' _ IH Hadd
                  | layer self b self' _ IH Herase
                  | self self' _ IH Hspecial
                  | start timestamp x y self c self' _ IH Hget].
  - exists []. split; [reflexivity | simpl; lia].
  - destruct IH as (q & -> & Hq). rewrite add_store in Hadd.
    destruct (length q =? length get_layers * 100) eqn:E; [discriminate|].
    apply Nat.eqb_neq in E. inversion Hadd; subst.
    exists (q ++ [layer]). split; [reflexivity|].
    rewrite length_app. simpl. lia.
  - destruct IH as (q & -> & Hq). rewrite erase_store in Herase.
    destruct q as [|h rest]; [discriminate|].
    inversion Herase; subst.
    exists rest. split; [reflexivity | simpl in Hq; lia].
  - destruct IH as (q & -> & Hq).
    rewrite special_store in Hspecial by assumption.
    inversion Hspecial; subst.
    exists (rev q). split; [reflexivity | rewrite length_rev; assumption].
  - destruct IH as (q & -> & Hq).
    rewrite get_color_store in Hget by assumption.
    inversion Hget; subst.
    exists q. split; [reflexivity | assumption].
Qed.

(** C4: after [add] calls that leave the layers [L1 .. Ln] in the queue,
    [get_color] returns the left fold of their transforms over the start
    colour, [Ln.apply(... L1.apply(start) ...)], and leaves the store,
    and with it the head-to-tail order, as it was; an immediately
    repeated call returns the same colour. *)
Theorem additive_get_color_left_fold :
  forall get_layers layers start timestamp x y,
  length layers <= length get_layers * 100 ->
  exists self,
    add_all layers (init get_layers) = Ok (tt, self) /\
    held self = layers /\
    get_color start timestamp x y self =
      Ok (compose layers start timestamp x y, self) /\
    (first <- get_color start timestamp x y ;;
     second <- get_color start timestamp x y ;;
     ret (first, second)) self =
      Ok ((compose layers start timestamp x y,
           compose layers start timestamp x y), self) /\
    (forall L1 L2 L3,
       compose [L1; L2; L3] start timestamp x y =
       apply L3 (apply L2 (apply L1 start timestamp x y) timestamp x y)
         timestamp x y).
Proof.
  intros get_layers layers start timestamp x y Hlen.
  set (cap := length get_layers * 100) in *.
  exists (store layers cap [] cap).
  assert (Hadd : add_all layers (init get_layers) =
                 Ok (tt, store layers cap [] cap)).
  { change (init get_layers) with (store [] cap [] cap).
    rewrite add_all_store by (simpl; lia). reflexivity. }
  assert (Hget : get_color start timestamp x y (store layers cap [] cap) =
                 Ok (compose layers start timestamp x y,
                     store layers cap [] cap))
    by (apply get_color_store; assumption).
  repeat split.
  - exact Hadd.
  - exact Hget.
  - unfold bind. rewrite Hget. rewrite Hget. reflexivity.
Qed.

(** C5: on a store reached through method calls, [special] succeeds and
    leaves the held layers in the reverse head-to-tail order; a second
    call gives back the store as it was before the first, so [get_color]
    returns what it returned before either call. *)
Theorem additive_special_involution :
  forall get_layers self start timestamp x y,
  reachable get_layers self ->
  exists once twice,
    special self = Ok (tt, once) /\
    held once = rev (held self) /\
    special once = Ok (tt, twice) /\
    twice = self /\
    get_color start timestamp x y twice = get_color start timestamp x y self.
Proof.
  intros get_layers self start timestamp x y Hreach.
  destruct (reachable_settled Hreach) as (q & -> & Hq).
  set (cap := length get_layers * 100) in *.
  exists (store (rev q) cap [] cap), (store q cap [] cap).
  repeat split.
  - apply special_store; assumption.
  - rewrite <- (rev_involutive q) at 2.
    apply special_store; rewrite length_rev; assumption.
Qed.

(** C6: [erase] ignores its argument: on an empty queue it raises the
    queue's underflow error, otherwise it removes the layer at the head
    and returns true.  After adding [L1; L2; L3] to a new store, one
    [erase] leaves [L2; L3], and [get_color] composes these two in that
    order. *)
Theorem additive_erase_removes_head :
  forall get_layers layer self L1 L2 L3 start timestamp x y,
  get_layers <> [] ->
  erase layer self =
    match held self with
    | [] => Raise QueueEmpty
    | _ :: rest =>
        Ok (true, {| layer_queue :=
                       {| CircularQueue.items := rest;
                          CircularQueue.capacity :=
                            CircularQueue.capacity (layer_queue self) |};
                     layer_stack := layer_stack self |})
    end /\
  exists after,
    (add_all [L1; L2; L3] ;;; erase layer) (init get_layers) =
      Ok (true, after) /\
    held after = [L2; L3] /\
    get_color start timestamp x y after =
      Ok (apply L3 (apply L2 start timestamp x y) timestamp x y, after).
Proof.
  intros get_layers layer self L1 L2 L3 start timestamp x y Hne.
  split.
  - destruct self as [[q qcap] [st scap]].
    change (erase layer (store q qcap st scap) =
            match q with
            | [] => Raise QueueEmpty
            | _ :: rest => Ok (true, store rest qcap st scap)
            end).
    apply erase_store.
  - assert (Hcap : 3 <= length get_layers * 100).
    { destruct get_layers; [congruence | simpl; lia]. }
    set (cap := length get_layers * 100) in *.
    exists (store [L2; L3] cap [] cap).
    change (init get_layers) with (store [] cap [] cap).
    repeat split.
    + unfold bind. rewrite add_all_store by (simpl; lia).
      simpl app. rewrite erase_store. reflexivity.
    + rewrite get_color_store by (simpl; lia). reflexivity.
Qed.
End AdditiveLayerStoreProperties.

(** ** SequenceLayerStore *)

Section SequenceLayerStoreProperties.
Import SequenceLayerStore Sequence.

Lemma check_index : forall i bs,
  i < BSet.capacity bs -> BSet.check (i + 1) bs = None.
Proof.
  intros i bs H. unfold BSet.check.
  destruct (Nat.ltb_spec (i + 1) 1); [lia|].
  destruct (Nat.ltb_spec (BSet.capacity bs) (i + 1)); [lia | reflexivity].
Qed.

Lemma bit_index : forall i, BSet.bit (i + 1) = N.of_nat i.
Proof. intros. unfold BSet.bit. f_equal. lia. Qed.

Lemma set_contains_index : forall i self,
  i < BSet.capacity (layer_set self) ->
  set_contains (i + 1) self = Ok (member i self, self).
Proof.
  intros i self H. unfold set_contains, BSet.contains.
  rewrite check_index by assumption. rewrite bit_index. reflexivity.
Qed.

Lemma set_add_index : forall i self,
  i < BSet.capacity (layer_set self) ->
  set_add (i + 1) self =
  Ok (tt, with_layer_set self
            {| BSet.elems := N.setbit (BSet.elems (layer_set self)) (N.of_nat i);
               BSet.capacity := BSet.capacity (layer_set self) |}).
Proof.
  intros i self H. unfold set_add, BSet.add.
  rewrite check_index by assumption. rewrite bit_index. reflexivity.
Qed.

Lemma set_remove_index : forall i self,
  i < BSet.capacity (layer_set self) -> member i self = true ->
  set_remove (i + 1) self =
  Ok (tt, with_layer_set self
            {| BSet.elems := N.clearbit (BSet.elems (layer_set self)) (N.of_nat i);
               BSet.capacity := BSet.capacity (layer_set self) |}).
Proof.
  intros i self H Hm. unfold set_remove, BSet.remove.
  rewrite check_index by assumption. rewrite bit_index.
  unfold member in Hm. rewrite Hm. reflexivity.
Qed.

Lemma of_nat_eqb : forall i j, (N.of_nat i =? N.of_nat j)%N = (i =? j).
Proof.
  intros. destruct (Nat.eqb_spec i j) as [->|Hne].
  - apply N.eqb_refl.
  - apply N.eqb_neq. intro H. apply Nat2N.inj in H. contradiction.
Qed.

Lemma member_setbit : forall i j self,
  member j (with_layer_set self
              {| BSet.elems := N.setbit (BSet.elems (layer_set self)) (N.of_nat i);
                 BSet.capacity := BSet.capacity (layer_set self) |}) =
  (j =? i) || member j self.
Proof.
  intros. unfold member. simpl. rewrite N.setbit_eqb, of_nat_eqb.
  rewrite (Nat.eqb_sym i j). reflexivity.
Qed.

Lemma member_clearbit : forall i j self,
  member j (with_layer_set self
              {| BSet.elems := N.clearbit (BSet.elems (layer_set self)) (N.of_nat i);
                 BSet.capacity := BSet.capacity (layer_set self) |}) =
  negb (j =? i) && member j self.
Proof.
  intros. unfold member. simpl. rewrite N.clearbit_eqb, of_nat_eqb.
  rewrite (Nat.eqb_sym i j). apply andb_comm.
Qed.

Lemma add_member : forall layer self,
  index layer < BSet.capacity (layer_set self) ->
  member (index layer) self = true ->
  add layer self = Ok (false, self).
Proof.
  intros layer self H Hm. unfold add, bind.
  rewrite set_contains_index by assumption. rewrite Hm. reflexivity.
Qed.

Lemma add_fresh : forall layer self,
  index layer < BSet.capacity (layer_set self) ->
  member (index layer) self = false ->
  add layer self =
  Ok (true, with_layer_set self
              {| BSet.elems :=
                   N.setbit (BSet.elems (layer_set self)) (N.of_nat (index layer));
                 BSet.capacity := BSet.capacity (layer_set self) |}).
Proof.
  intros layer self H Hm. unfold add, bind.
  rewrite set_contains_index by assumption. rewrite Hm.
  rewrite set_add_index by assumption. reflexivity.
Qed.

Lemma erase_member : forall layer self,
  index layer < BSet.capacity (layer_set self) ->
  member (index layer) self = true ->
  erase layer self =
  Ok (true, with_layer_set self
              {| BSet.elems :=
                   N.clearbit (BSet.elems (layer_set self)) (N.of_nat (index layer));
                 BSet.capacity := BSet.capacity (layer_set self) |}).
Proof.
  intros layer self H Hm. unfold erase, bind.
  rewrite set_contains_index by assumption. rewrite Hm. cbn [negb].
  rewrite set_remove_index by assumption. reflexivity.
Qed.

Lemma erase_absent : forall layer self,
  index layer < BSet.capacity (layer_set self) ->
  member (index layer) self = false ->
  erase layer self = Ok (false, self).
Proof.
  intros layer self H Hm. unfold erase, bind.
  rewrite set_contains_index by assumption. rewrite Hm. reflexivity.
Qed.

(** C8: for a layer whose index lies in the bitset's universe, [add]
    returns true iff the index was not a member, and makes it one; on a
    member it changes nothing, so adding twice returns false the second
    time.  [erase] returns true iff the index was a member, and removes
    it; on an absent index it returns false, raises nothing and changes
    nothing. *)
Theorem sequence_add_erase_report_change : forall layer self,
  index layer < BSet.capacity (layer_set self) ->
  (exists self',
     add layer self = Ok (negb (member (index layer) self), self') /\
     (forall j, member j self' = (j =? index layer) || member j self) /\
     (member (index layer) self = true -> self' = self) /\
     add layer self' = Ok (false, self')) /\
  (exists self',
     erase layer self = Ok (member (index layer) self, self') /\
     (forall j, member j self' = negb (j =? index layer) && member j self) /\
     (member (index layer) self = false -> self' = self)).
Proof.
  intros layer self H.
  destruct (member (index layer) self) eqn:Hm; split.
  - exists self. repeat split.
    + apply add_member; assumption.
    + intro j. destruct (Nat.eqb_spec j (index layer)) as [->|_];
        [rewrite Hm|]; reflexivity.
    + apply add_member; assumption.
  - eexists. split; [apply erase_member; assumption|].
    split; [intro j; apply member_clearbit | discriminate].
  - eexists. split; [apply add_fresh; assumption|].
    split; [intro j; apply member_setbit|].
    split; [discriminate|].
    apply add_member; [exact H|].
    rewrite member_setbit, Nat.eqb_refl. reflexivity.
  - exists self. repeat split.
    + apply erase_absent; assumption.
    + intro j. destruct (Nat.eqb_spec j (index layer)) as [->|_];
        [rewrite Hm|]; reflexivity.
Qed.
(** [add] and [erase] touch nothing but the bits of the set. *)
Lemma add_frame : forall layer self b self',
  add layer self = Ok (b, self') ->
  layer_list self' = layer_list self /\
  is_specialized self' = is_specialized self /\
  BSet.capacity (layer_set self') = BSet.capacity (layer_set self).
Proof.
  intros layer self b self'.
  unfold add, bind, ret, set_contains, set_add, BSet.contains, BSet.add.
  destruct (BSet.check (index layer + 1) (layer_set self)) eqn:U;
    [discriminate|].
  destruct (N.testbit (BSet.elems (layer_set self))
              (BSet.bit (index layer + 1))) eqn:T;
    cbn beta iota; try rewrite U; try rewrite T; cbn beta iota;
    intro H; inversion H; subst; simpl; repeat split.
Qed.

Lemma erase_frame : forall layer self b self',
  erase layer self = Ok (b, self') ->
  layer_list self' = layer_list self /\
  is_specialized self' = is_specialized self /\
  BSet.capacity (layer_set self') = BSet.capacity (layer_set self).
Proof.
  intros layer self b self'.
  unfold erase, bind, ret, set_contains, set_remove, BSet.contains, BSet.remove.
  destruct (BSet.check (index layer + 1) (layer_set self)) eqn:U;
    [discriminate|].
  destruct (N.testbit (BSet.elems (layer_set self))
              (BSet.bit (index layer + 1))) eqn:T;
    cbn [negb]; try rewrite U; try rewrite T; cbn beta iota;
    intro H; inversion H; subst; simpl; repeat split.
Qed.

Lemma run_frame : forall calls self self',
  run calls self = Ok self' ->
  layer_list self' = layer_list self /\
  is_specialized self' = is_specialized self /\
  BSet.capacity (layer_set self') = BSet.capacity (layer_set self).
Proof.
  induction calls as [|[l|l] calls IH]; intros self self' H; simpl in H.
  - inversion H; subst. repeat split.
  - destruct (add l self) as [[b mid]|e] eqn:E; [|discriminate].
    apply add_frame in E. apply IH in H.
    destruct E as (E1 & E2 & E3), H as (H1 & H2 & H3).
    repeat split; congruence.
  - destruct (erase l self) as [[b mid]|e] eqn:E; [|discriminate].
    apply erase_frame in E. apply IH in H.
    destruct E as (E1 & E2 & E3), H as (H1 & H2 & H3).
    repeat split; congruence.
Qed.

(** Two stores over one catalogue with the same members are the same
    store. *)
Lemma same_members_same_store : forall self1 self2,
  layer_list self1 = layer_list self2 ->
  is_specialized self1 = is_specialized self2 ->
  BSet.capacity (layer_set self1) = BSet.capacity (layer_set self2) ->
  (forall i, member i self1 = member i self2) ->
  self1 = self2.
Proof.
  intros [[e1 c1] sp1 ll1] [[e2 c2] sp2 ll2]. unfold member. simpl.
  intros -> -> -> Hbits. f_equal. f_equal.
  apply N.bits_inj. intro n. specialize (Hbits (N.to_nat n)).
  rewrite N2Nat.id in Hbits. exact Hbits.
Qed.

(** The loop of [get_color] applies the member layers of the catalogue
    in the catalogue's order and leaves the store alone. *)
Lemma apply_loop : forall timestamp x y layers color self,
  fits (BSet.capacity (layer_set self)) layers = true ->
  for_each layers
    (fun each_layer color =>
       match each_layer with
       | None => ret color
       | Some l =>
           present <- set_contains (index l + 1) ;;
           if present then ret (apply l color timestamp x y)
           else ret color
       end)
    color self =
  Ok (compose (filter (fun l => member (index l) self) (registered layers))
        color timestamp x y, self).
Proof.
  intros timestamp x y.
  induction layers as [|[l|] layers IH]; intros color self Hfits.
  - reflexivity.
  - unfold fits in Hfits. simpl in Hfits.
    apply andb_true_iff in Hfits. destruct Hfits as [Hl Hrest].
    apply Nat.ltb_lt in Hl.
    simpl for_each. unfold bind at 1. unfold bind at 1.
    rewrite set_contains_index by assumption.
    simpl registered. simpl filter.
    destruct (member (index l) self); unfold ret at 1;
      rewrite IH by exact Hrest; reflexivity.
  - simpl for_each. unfold bind at 1. unfold ret at 1.
    apply IH. exact Hfits.
Qed.

Lemma get_color_members : forall start timestamp x y self,
  fits (BSet.capacity (layer_set self)) (layer_list self) = true ->
  get_color start timestamp x y self =
  Ok (compose (members self) start timestamp x y, self).
Proof.
  intros. unfold get_color. unfold bind at 1. unfold gets at 1.
  apply apply_loop. assumption.
Qed.

(** In a catalogue whose layers sit at their index, any selection of
    layers taken in catalogue order has strictly ascending indices. *)
Lemma selection_ascending : forall (keep : Layer -> bool) layers i,
  indexed_from i layers = true ->
  StronglySorted lt (map index (filter keep (registered layers))) /\
  Forall (fun j => i <= j) (map index (filter keep (registered layers))).
Proof.
  intros keep.
  induction layers as [|[l|] layers IH]; intros i H; simpl in H.
  - simpl. split; constructor.
  - apply andb_true_iff in H. destruct H as [Hi Hrest].
    apply Nat.eqb_eq in Hi.
    destruct (IH (S i) Hrest) as [Hsorted Hbound].
    assert (Hweak : Forall (fun j => i <= j)
                      (map index (filter keep (registered layers)))).
    { eapply Forall_impl; [|exact Hbound]. simpl. intros; lia. }
    simpl registered. simpl filter. destruct (keep l); simpl.
    + split.
      * constructor; [exact Hsorted|].
        eapply Forall_impl; [|exact Hbound]. simpl. intros; lia.
      * constructor; [lia | exact Hweak].
    + split; assumption.
  - destruct (IH (S i) H) as [Hsorted Hbound]. simpl registered.
    split; [exact Hsorted|].
    eapply Forall_impl; [|exact Hbound]. simpl. intros; lia.
Qed.

(** C7: two sequences of [add] and [erase] calls on new stores over one
    catalogue that end with the same members end in the same store, and
    [get_color] returns the same colour on both: the left fold of the
    member layers taken in catalogue order, which is ascending index
    order. *)
Theorem sequence_get_color_order_independent :
  forall get_layers calls1 calls2 self1 self2 start timestamp x y,
  fits 9 get_layers = true ->
  indexed_from 0 get_layers = true ->
  run calls1 (init get_layers) = Ok self1 ->
  run calls2 (init get_layers) = Ok self2 ->
  (forall i, member i self1 = member i self2) ->
  get_color start timestamp x y self1 =
    Ok (compose (members self1) start timestamp x y, self1) /\
  get_color start timestamp x y self2 =
    Ok (compose (members self1) start timestamp x y, self2) /\
  StronglySorted lt (map index (members self1)) /\
  (forall l, In l (members self1) <->
             In l (registered get_layers) /\ member (index l) self1 = true).
Proof.
  intros get_layers calls1 calls2 self1 self2 start timestamp x y
    Hfits Hindexed Hrun1 Hrun2 Hsame.
  destruct (run_frame _ _ Hrun1) as (Hl1 & Hs1 & Hc1).
  destruct (run_frame _ _ Hrun2) as (Hl2 & Hs2 & Hc2).
  simpl in Hl1, Hs1, Hc1, Hl2, Hs2, Hc2.
  assert (Heq : self1 = self2).
  { apply same_members_same_store; congruence. }
  subst self2.
  assert (Hget : get_color start timestamp x y self1 =
                 Ok (compose (members self1) start timestamp x y, self1)).
  { apply get_color_members. rewrite Hc1, Hl1. exact Hfits. }
  split; [exact Hget|]. split; [exact Hget|]. split.
  - unfold members. rewrite Hl1.
    apply (selection_ascending _ _ 0 Hindexed).
  - intro l. unfold members. rewrite Hl1. apply filter_In.
Qed.
(** *** The sorted list of [special] *)

Lemma ascii_compare_lt_trans : forall a b c,
  Ascii.compare a b = Lt -> Ascii.compare b c = Lt -> Ascii.compare a c = Lt.
Proof.
  unfold Ascii.compare. intros a b c H1 H2.
  rewrite N.compare_lt_iff in *. lia.
Qed.

Lemma string_leb_trans : forall s1 s2 s3,
  String.leb s1 s2 = true -> String.leb s2 s3 = true ->
  String.leb s1 s3 = true.
Proof.
  unfold String.leb.
  induction s1 as [|a s1 IH]; intros [|b s2] [|c s3]; simpl; try congruence.
  destruct (Ascii.compare a b) eqn:Eab; try discriminate;
    destruct (Ascii.compare b c) eqn:Ebc; try discriminate.
  - apply Ascii.compare_eq_iff in Eab, Ebc. subst.
    assert (E : Ascii.compare c c = Eq)
      by (unfold Ascii.compare; apply N.compare_refl).
    rewrite E. apply IH.
  - apply Ascii.compare_eq_iff in Eab. subst. rewrite Ebc. reflexivity.
  - apply Ascii.compare_eq_iff in Ebc. subst. rewrite Eab. reflexivity.
  - rewrite (ascii_compare_lt_trans _ _ _ Eab Ebc). reflexivity.
Qed.

Lemma key_le_trans : forall a b c, key_le a b -> key_le b c -> key_le a c.
Proof. unfold key_le. intros a b c. apply string_leb_trans. Qed.

Lemma ltb_leb : forall s1 s2, String.ltb s1 s2 = true -> String.leb s1 s2 = true.
Proof.
  unfold String.ltb, String.leb. intros s1 s2.
  destruct (String.compare s1 s2); congruence.
Qed.

Lemma not_ltb_leb : forall s1 s2,
  String.ltb s1 s2 = false -> String.leb s2 s1 = true.
Proof.
  unfold String.ltb, String.leb. intros s1 s2.
  rewrite (String.compare_antisym s2 s1).
  destruct (String.compare s1 s2); simpl; congruence.
Qed.

Lemma insert_permutation : forall item l,
  Permutation (ArraySortedList.insert item l) (item :: l).
Proof.
  intros item. induction l as [|h rest IH]; simpl.
  - apply Permutation_refl.
  - destruct (String.ltb (key h) (key item)).
    + eapply perm_trans; [apply perm_skip, IH | apply perm_swap].
    + apply Permutation_refl.
Qed.

Lemma insert_hd : forall h item rest,
  key_le h item -> HdRel key_le h rest ->
  HdRel key_le h (ArraySortedList.insert item rest).
Proof.
  intros h item [|r rest] Hle Hhd; simpl.
  - constructor. exact Hle.
  - destruct (String.ltb (key r) (key item)); constructor.
    + inversion Hhd; assumption.
    + exact Hle.
Qed.

Lemma insert_sorted : forall item l,
  Sorted key_le l -> Sorted key_le (ArraySortedList.insert item l).
Proof.
  intros item. induction l as [|h rest IH]; intro Hs; simpl.
  - repeat constructor.
  - inversion Hs as [|? ? Hrest Hhd]; subst.
    destruct (String.ltb (key h) (key item)) eqn:E.
    + constructor; [apply IH; exact Hrest|].
      apply insert_hd; [apply ltb_leb; exact E | exact Hhd].
    + constructor; [exact Hs|]. constructor.
      apply not_ltb_leb. exact E.
Qed.

Lemma insert_all_permutation : forall layers acc,
  Permutation
    (fold_left (fun acc l => ArraySortedList.insert (item_of l) acc) layers acc)
    (map item_of layers ++ acc).
Proof.
  induction layers as [|l layers IH]; intro acc; simpl.
  - apply Permutation_refl.
  - eapply perm_trans; [apply IH|].
    eapply perm_trans;
      [apply Permutation_app_head, insert_permutation|].
    apply Permutation_sym, Permutation_middle.
Qed.

Lemma insert_all_sorted : forall layers acc,
  Sorted key_le acc ->
  Sorted key_le
    (fold_left (fun acc l => ArraySortedList.insert (item_of l) acc) layers acc).
Proof.
  induction layers as [|l layers IH]; intros acc Hs; simpl.
  - exact Hs.
  - apply IH, insert_sorted, Hs.
Qed.

Lemma ranked_permutation : forall self,
  Permutation (ranked self) (map item_of (members self)).
Proof.
  intro self. unfold ranked.
  eapply perm_trans; [apply insert_all_permutation|].
  rewrite app_nil_r. apply Permutation_refl.
Qed.

Lemma ranked_values : forall self,
  Permutation (map value (ranked self)) (members self).
Proof.
  intro self.
  eapply perm_trans; [apply Permutation_map, ranked_permutation|].
  rewrite map_map. simpl. rewrite map_id. apply Permutation_refl.
Qed.

Lemma ranked_length : forall self,
  length (ranked self) = length (members self).
Proof.
  intro self. rewrite (Permutation_length (ranked_permutation self)).
  apply length_map.
Qed.

Lemma ranked_sorted : forall self, StronglySorted key_le (ranked self).
Proof.
  intro self. apply Sorted_StronglySorted.
  - intros a b c. apply key_le_trans.
  - apply insert_all_sorted. constructor.
Qed.

Lemma ranked_keys : forall self,
  Forall (fun item => key item = name (value item)) (ranked self).
Proof.
  intro self.
  eapply Permutation_Forall; [apply Permutation_sym, ranked_permutation|].
  apply Forall_forall. intros item Hin.
  apply in_map_iff in Hin. destruct Hin as (l & <- & _). reflexivity.
Qed.

(** The first loop of [special] inserts the member layers into the sorted
    list, which has room for them. *)
Lemma collect_loop : forall layers acc capacity self,
  fits (BSet.capacity (layer_set self)) layers = true ->
  length acc +
    length (filter (fun l => member (index l) self) (registered layers))
    <= capacity ->
  for_each layers
    (fun each_layer sl =>
       match each_layer with
       | None => ret sl
       | Some l =>
           present <- set_contains (index l + 1) ;;
           if present then
             let item := {| value := l; key := name l |} in
             lift (ArraySortedList.add item sl)
           else ret sl
       end)
    {| ArraySortedList.items := acc; ArraySortedList.capacity := capacity |}
    self =
  Ok ({| ArraySortedList.items :=
           fold_left (fun acc l => ArraySortedList.insert (item_of l) acc)
             (filter (fun l => member (index l) self) (registered layers))
             acc;
         ArraySortedList.capacity := capacity |}, self).
Proof.
  induction layers as [|[l|] layers IH]; intros acc capacity self Hfits Hroom.
  - reflexivity.
  - unfold fits in Hfits. simpl in Hfits.
    apply andb_true_iff in Hfits. destruct Hfits as [Hl Hrest].
    apply Nat.ltb_lt in Hl.
    simpl for_each. unfold bind at 1. unfold bind at 1.
    rewrite set_contains_index by assumption.
    simpl registered in *. simpl filter in *.
    destruct (member (index l) self).
    + simpl in Hroom.
      unfold lift, ArraySortedList.add, ArraySortedList.is_full,
        ArraySortedList.len.
      cbn [ArraySortedList.items ArraySortedList.capacity].
      destruct (length acc =? capacity) eqn:E.
      { apply Nat.eqb_eq in E. lia. }
      rewrite IH; [reflexivity | exact Hrest |].
      rewrite (Permutation_length (insert_permutation _ _)). simpl. lia.
    + unfold ret at 1. apply IH; assumption.
  - simpl for_each. unfold bind at 1. unfold ret at 1.
    apply IH; assumption.
Qed.

Lemma even_mod2 : forall n, (n mod 2 =? 0) = Nat.even n.
Proof.
  intro n. rewrite <- Nat.negb_odd, <- Nat.bit0_odd, Nat.bit0_eqb.
  pose proof (Nat.mod_upper_bound n 2).
  destruct (n mod 2) as [|[|k]]; simpl; try reflexivity. lia.
Qed.

Lemma median_rank_in_range : forall n, 0 < n -> median_rank n < n.
Proof.
  intros n Hn. unfold median_rank.
  pose proof (Nat.div_lt n 2 Hn). destruct (Nat.even n); lia.
Qed.

Lemma special_ranked : forall self,
  fits (BSet.capacity (layer_set self)) (layer_list self) = true ->
  length (members self) <= 10000 ->
  special self =
  match nth_error (ranked self) (median_rank (length (ranked self))) with
  | Some item =>
      Ok (tt, with_layer_set self
                {| BSet.elems :=
                     N.clearbit (BSet.elems (layer_set self))
                       (N.of_nat (index (value item)));
                   BSet.capacity := BSet.capacity (layer_set self) |})
  | None => Ok (tt, self)
  end.
Proof.
  intros self Hfits Hroom. unfold special.
  unfold bind at 1. unfold gets at 1.
  unfold bind at 1. unfold ArraySortedList.new.
  rewrite collect_loop by (try exact Hfits; simpl; exact Hroom).
  fold (members self). fold (ranked self).
  unfold ArraySortedList.is_empty, ArraySortedList.len.
  cbn [ArraySortedList.items].
  rewrite even_mod2. fold (median_rank (length (ranked self))).
  destruct (ranked self) as [|first others] eqn:Hranked.
  - reflexivity.
  - cbn [length Nat.eqb negb]. unfold bind at 1.
    unfold lift at 1, ArraySortedList.getitem.
    cbn [ArraySortedList.items].
    change (S (length others)) with (length (first :: others)).
    destruct (nth_error (first :: others)
                (median_rank (length (first :: others)))) as [item|] eqn:Hnth.
    + assert (Hin : In (value item) (members self)).
      { apply (Permutation_in _ (ranked_values self)).
        rewrite Hranked. apply in_map. eapply nth_error_In. exact Hnth. }
      unfold members in Hin. apply filter_In in Hin.
      destruct Hin as [Hreg Hmem].
      unfold fits in Hfits. rewrite forallb_forall in Hfits.
      apply Hfits in Hreg. apply Nat.ltb_lt in Hreg.
      apply set_remove_index; assumption.
    + apply nth_error_None in Hnth.
      pose proof (@median_rank_in_range (length (first :: others))) as Hlt.
      simpl in Hlt, Hnth. lia.
Qed.
(** C3: [special] ranks the member layers by name: the ranking is a
    permutation of the members, each keyed by its name, in ascending
    order of the keys.  With [n] members it removes from the set the
    index of the layer at rank [n / 2 - 1] when [n] is even and at rank
    [n / 2] when [n] is odd, and nothing else; without members it
    changes nothing.  Of apple, banana, cherry, date and egg it removes
    cherry, and of apple, banana, date and egg it removes banana. *)
Theorem sequence_special_removes_median : forall self,
  fits (BSet.capacity (layer_set self)) (layer_list self) = true ->
  length (members self) <= 10000 ->
  (Permutation (map value (ranked self)) (members self) /\
   Forall (fun item => key item = name (value item)) (ranked self) /\
   StronglySorted key_le (ranked self) /\
   exists self',
     special self = Ok (tt, self') /\
     layer_list self' = layer_list self /\
     let n := length (members self) in
     let rank := if Nat.even n then n / 2 - 1 else n / 2 in
     match nth_error (ranked self) rank with
     | Some item =>
         forall j,
           member j self' = negb (j =? index (value item)) && member j self
     | None => members self = [] /\ self' = self
     end) /\
  (exists five five',
     run [Add egg; Add apple; Add date; Add cherry; Add banana]
       (init fruit_catalogue) = Ok five /\
     members five = [apple; banana; cherry; date; egg] /\
     special five = Ok (tt, five') /\
     members five' = [apple; banana; date; egg]) /\
  (exists four four',
     run [Add egg; Add apple; Add date; Add banana]
       (init fruit_catalogue) = Ok four /\
     members four = [apple; banana; date; egg] /\
     special four = Ok (tt, four') /\
     members four' = [apple; date; egg]).
Proof.
  intros self Hfits Hroom. split; [|split].
  - split; [apply ranked_values|].
    split; [apply ranked_keys|].
    split; [apply ranked_sorted|].
    pose proof (special_ranked self Hfits Hroom) as Hspecial.
    cbv zeta. rewrite <- (ranked_length self).
    change (if Nat.even (length (ranked self))
            then length (ranked self) / 2 - 1
            else length (ranked self) / 2)
      with (median_rank (length (ranked self))).
    destruct (nth_error (ranked self) (median_rank (length (ranked self))))
      as [item|] eqn:Hnth.
    + eexists. split; [exact Hspecial|]. split; [reflexivity|].
      intro j. apply member_clearbit.
    + exists self. split; [exact Hspecial|]. split; [reflexivity|].
      split; [|reflexivity].
      apply nth_error_None in Hnth.
      pose proof (@median_rank_in_range (length (ranked self))) as Hlt.
      rewrite ranked_length in *.
      destruct (members self); [reflexivity | simpl in *; lia].
  - eexists. eexists.
    split; [vm_compute; reflexivity|].
    split; [vm_compute; reflexivity|].
    split; vm_compute; reflexivity.
  - eexists. eexists.
    split; [vm_compute; reflexivity|].
    split; [vm_compute; reflexivity|].
    split; vm_compute; reflexivity.
Qed.
End SequenceLayerStoreProperties.

(** ** UndoTracker *)

Section UndoTrackerProperties.
Import UndoTracker.
Variables PaintAction Grid : Type.
Variable undo_apply : PaintAction -> Grid -> result Grid.

(** [add_action] empties the undo stack, pops nothing off the history
    (the loop runs over the length of the stack just cleared) and pushes
    the action, unless the history is full. *)
Lemma add_action_stacks :
  forall self (action : PaintAction) history hcap undone ucap,
  add_action self action (stacks history hcap undone ucap) =
  if length history =? hcap then Raise StackFull
  else Ok (tt, stacks (action :: history) hcap [] ucap).
Proof.
  intros. unfold add_action, stacks.
  unfold bind, gets, ret, undo_clear, history_push, ArrayStack.push,
    ArrayStack.is_full, ArrayStack.is_empty, ArrayStack.len, ArrayStack.clear.
  cbn [history_stack undo_stack ArrayStack.items ArrayStack.capacity].
  destruct (length history =? hcap) eqn:Hfull;
    destruct undone as [|u undone]; simpl; rewrite ?Hfull; reflexivity.
Qed.

Lemma undo_stacks : forall self grid (action : PaintAction) history hcap ucap,
  0 < ucap ->
  undo undo_apply self grid (stacks (action :: history) hcap [] ucap) =
  match undo_apply action grid with
  | Ok grid' => Ok ((Some action, grid'), stacks history hcap [action] ucap)
  | Raise e => Raise e
  end.
Proof.
  intros self grid action history hcap ucap Hcap. unfold undo, stacks.
  unfold bind, gets, ret, lift, history_pop, undo_push, ArrayStack.pop,
    ArrayStack.push, ArrayStack.is_full, ArrayStack.is_empty, ArrayStack.len.
  cbn [history_stack undo_stack ArrayStack.items ArrayStack.capacity length
       Nat.eqb].
  destruct ucap as [|ucap]; [lia|].
  cbn [Nat.eqb]. destruct (undo_apply action grid); reflexivity.
Qed.

(** C10: the two stacks belong to the class, so whichever instance a
    method is called on, it works on the same stacks: when the history
    is not full, [add_action] called on one tracker pushes the action,
    and [undo] called next on any other tracker pops that very action,
    moves it to the undo stack, applies its [undo_apply] to the grid and
    returns it. *)
Theorem undo_tracker_shares_stacks :
  forall (t1 t2 : t) action grid (cls : class_attrs PaintAction),
  t1 <> t2 ->
  ArrayStack.is_full (history_stack cls) = false ->
  0 < ArrayStack.capacity (undo_stack cls) ->
  exists cls1,
    add_action t1 action cls = Ok (tt, cls1) /\
    ArrayStack.items (history_stack cls1) =
      action :: ArrayStack.items (history_stack cls) /\
    undo undo_apply t2 grid cls1 =
      match undo_apply action grid with
      | Ok grid' =>
          Ok ((Some action, grid'),
              stacks (ArrayStack.items (history_stack cls))
                (ArrayStack.capacity (history_stack cls))
                [action]
                (ArrayStack.capacity (undo_stack cls)))
      | Raise e => Raise e
      end.
Proof.
  intros t1 t2 action grid [[history hcap] [undone ucap]] _ Hfull Hcap.
  unfold ArrayStack.is_full, ArrayStack.len in Hfull. simpl in Hfull, Hcap.
  exists (stacks (action :: history) hcap [] ucap).
  change {| history_stack := {| ArrayStack.items := history;
                                ArrayStack.capacity := hcap |};
            undo_stack := {| ArrayStack.items := undone;
                             ArrayStack.capacity := ucap |} |}
    with (stacks history hcap undone ucap).
  rewrite add_action_stacks, Hfull.
  split; [reflexivity|]. split; [reflexivity|].
  apply undo_stacks. exact Hcap.
Qed.
End UndoTrackerProperties.

(** ** The theorems at concrete inputs *)

Lemma additive_get_color_left_fold_witness :
  exists self,
    Additive.add_all [red_layer; darken_layer; invert_layer]
      (AdditiveLayerStore.init paint_catalogue) = Ok (tt, self) /\
    AdditiveLayerStore.get_color (10, 20, 30)%Z 0 0 0 self =
      Ok ((128, 255, 255)%Z, self).
Proof.
  destruct (@additive_get_color_left_fold paint_catalogue
              [red_layer; darken_layer; invert_layer] (10, 20, 30)%Z 0%Z 0%Z 0%Z)
    as (self & Hadd & _ & Hget & _).
  - simpl. lia.
  - exists self. split; [exact Hadd | exact Hget].
Defined.

Lemma additive_special_involution_witness :
  exists self once,
    Additive.reachable paint_catalogue self /\
    AdditiveLayerStore.special self = Ok (tt, once) /\
    Additive.held self = [red_layer; darken_layer] /\
    Additive.held once = [darken_layer; red_layer] /\
    AdditiveLayerStore.special once = Ok (tt, self).
Proof.
  assert (Hreach : Additive.reachable paint_catalogue
                     (Additive.store [red_layer; darken_layer] 400 [] 400)).
  { apply Additive.reach_add with (layer := darken_layer) (b := true)
      (self := Additive.store [red_layer] 400 [] 400);
      [apply Additive.reach_add with (layer := red_layer) (b := true)
         (self := AdditiveLayerStore.init paint_catalogue);
         [apply Additive.reach_init | reflexivity]
      | reflexivity]. }
  destruct (@additive_special_involution paint_catalogue _ (10, 20, 30)%Z
              0%Z 0%Z 0%Z Hreach)
    as (once & twice & Hfirst & Hrev & Hsecond & Hsame & _).
  exists (Additive.store [red_layer; darken_layer] 400 [] 400), once.
  split; [exact Hreach|]. split; [exact Hfirst|].
  split; [reflexivity|]. split; [exact Hrev|].
  rewrite <- Hsame. exact Hsecond.
Defined.

Lemma additive_erase_removes_head_witness :
  paint_catalogue <> [] /\
  exists after,
    (bind (Additive.add_all [red_layer; darken_layer; invert_layer])
       (fun _ => AdditiveLayerStore.erase invert_layer))
      (AdditiveLayerStore.init paint_catalogue) = Ok (true, after) /\
    Additive.held after = [darken_layer; invert_layer] /\
    AdditiveLayerStore.get_color (10, 20, 30)%Z 0 0 0 after =
      Ok ((250, 245, 240)%Z, after).
Proof.
  assert (Hne : paint_catalogue <> []) by discriminate.
  split; [exact Hne|].
  exact (proj2 (@additive_erase_removes_head paint_catalogue invert_layer
                  (AdditiveLayerStore.init paint_catalogue)
                  red_layer darken_layer invert_layer
                  (10, 20, 30)%Z 0%Z 0%Z 0%Z Hne)).
Defined.

Lemma sequence_add_erase_report_change_witness :
  let self := fruit_store [Sequence.Add apple] in
  index cherry < BSet.capacity (SequenceLayerStore.layer_set self) /\
  (exists self',
     SequenceLayerStore.add cherry self = Ok (true, self') /\
     Sequence.member (index cherry) self' = true /\
     SequenceLayerStore.add cherry self' = Ok (false, self')) /\
  (exists self',
     SequenceLayerStore.erase cherry self = Ok (false, self') /\ self' = self).
Proof.
  intro self.
  assert (Hin : index cherry < BSet.capacity (SequenceLayerStore.layer_set self))
    by (simpl; lia).
  destruct (@sequence_add_erase_report_change cherry self Hin)
    as ((added & Hadd & Hmem & _ & Hagain) & (erased & Herase & _ & Hsame)).
  split; [exact Hin|]. split.
  - exists added. split; [exact Hadd|]. split; [exact (Hmem (index cherry)) | exact Hagain].
  - exists erased. split; [exact Herase | exact (Hsame eq_refl)].
Defined.

Lemma sequence_get_color_order_independent_witness :
  let self1 :=
    {| SequenceLayerStore.layer_set := {| BSet.elems := 5; BSet.capacity := 9 |};
       SequenceLayerStore.is_specialized := false;
       SequenceLayerStore.layer_list := paint_catalogue |} in
  Sequence.run [Sequence.Add invert_layer; Sequence.Add red_layer]
    (SequenceLayerStore.init paint_catalogue) = Ok self1 /\
  Sequence.run [Sequence.Add red_layer; Sequence.Add darken_layer;
                Sequence.Add invert_layer; Sequence.Erase darken_layer]
    (SequenceLayerStore.init paint_catalogue) = Ok self1 /\
  SequenceLayerStore.get_color (10, 20, 30)%Z 0 0 0 self1 =
    Ok ((0, 255, 255)%Z, self1).
Proof.
  intro self1.
  assert (Hrun1 : Sequence.run [Sequence.Add invert_layer; Sequence.Add red_layer]
                    (SequenceLayerStore.init paint_catalogue) = Ok self1)
    by reflexivity.
  assert (Hrun2 : Sequence.run
                    [Sequence.Add red_layer; Sequence.Add darken_layer;
                     Sequence.Add invert_layer; Sequence.Erase darken_layer]
                    (SequenceLayerStore.init paint_catalogue) = Ok self1)
    by reflexivity.
  split; [exact Hrun1|]. split; [exact Hrun2|].
  exact (proj1 (@sequence_get_color_order_independent paint_catalogue
                  _ _ self1 self1 (10, 20, 30)%Z 0%Z 0%Z 0%Z
                  eq_refl eq_refl Hrun1 Hrun2 (fun i => eq_refl))).
Defined.

Lemma sequence_special_removes_median_witness :
  let five :=
    fruit_store [Sequence.Add apple; Sequence.Add banana; Sequence.Add cherry;
                 Sequence.Add date; Sequence.Add egg] in
  fits 9 fruit_catalogue = true /\
  length (Sequence.members five) = 5 /\
  map key (Sequence.ranked five) =
    ["apple"; "banana"; "cherry"; "date"; "egg"]%string /\
  exists five',
    SequenceLayerStore.special five = Ok (tt, five') /\
    forall j, Sequence.member j five' = negb (j =? 2) && Sequence.member j five.
Proof.
  intro five.
  assert (Hfits : fits (BSet.capacity (SequenceLayerStore.layer_set five))
                    (SequenceLayerStore.layer_list five) = true)
    by reflexivity.
  assert (Hroom : length (Sequence.members five) <= 10000).
  { apply Nat.leb_le. vm_compute. reflexivity. }
  destruct (proj1 (@sequence_special_removes_median five Hfits Hroom))
    as (_ & _ & _ & five' & Hspecial & _ & Hremoved).
  split; [reflexivity|]. split; [reflexivity|]. split; [reflexivity|].
  exists five'. split; [exact Hspecial | exact Hremoved].
Defined.

Lemma undo_tracker_shares_stacks_witness :
  let undo_apply := fun (action : nat) (grid : list nat) => Ok (action :: grid) in
  let t1 := {| UndoTracker.ident := 1 |} in
  let t2 := {| UndoTracker.ident := 2 |} in
  t1 <> t2 /\
  exists cls1,
    UndoTracker.add_action t1 7 (UndoTracker.class_body nat) = Ok (tt, cls1) /\
    UndoTracker.undo undo_apply t2 [] cls1 =
      Ok ((Some 7, [7]), UndoTracker.stacks [] 10000 [7] 10000).
Proof.
  intros undo_apply t1 t2.
  assert (Hdistinct : t1 <> t2) by discriminate.
  assert (Hfull : ArrayStack.is_full
                    (UndoTracker.history_stack (UndoTracker.class_body nat)) = false)
    by (vm_compute; reflexivity).
  assert (Hcap : 0 < ArrayStack.capacity
                       (UndoTracker.undo_stack (UndoTracker.class_body nat))).
  { apply Nat.ltb_lt. vm_compute. reflexivity. }
  destruct (@undo_tracker_shares_stacks nat (list nat) undo_apply t1 t2 7 []
              (UndoTracker.class_body nat) Hdistinct Hfull Hcap)
    as (cls1 & Hadd & _ & Hundo).
  split; [exact Hdistinct|].
  exists cls1. split; [exact Hadd | exact Hundo].
Defined.

(** * Further properties of the code *)

(** ** SetLayerStore *)

Section SetLayerStoreFurther.
Import SetLayerStore SetStoreCalls.
Variable invert : Layer.

Lemma differs_same : forall a : option Layer, differs a a = false.
Proof.
  intros [l|]; simpl; [|reflexivity].
  unfold layer_eqb. rewrite Nat.eqb_refl. reflexivity.
Qed.

(** X1: [add] called a second time with the same argument returns false
    and leaves the store as the first call left it, whatever the store
    held before. *)
Theorem set_add_twice : forall layer_arg self,
  add layer_arg (snd (add layer_arg self)) = (false, snd (add layer_arg self)).
Proof.
  intros layer_arg self. unfold add at 2 3.
  destruct (differs layer_arg (layer self)) eqn:E; simpl.
  - unfold add. simpl. rewrite differs_same. reflexivity.
  - unfold add. rewrite E. reflexivity.
Qed.

(** X2: after [erase] with a layer, [add] with a layer always returns
    true, and [get_color] then applies that layer to the start colour,
    wrapped by [invert] when the store is inverted. *)
Theorem set_erase_then_add : forall erased l self start timestamp x y,
  let cleared := snd (erase (Some erased) self) in
  fst (add (Some l) cleared) = true /\
  layer (snd (add (Some l) cleared)) = Some l /\
  inverted (snd (add (Some l) cleared)) = inverted self /\
  fst (get_color invert start timestamp x y (snd (add (Some l) cleared))) =
    if inverted self
    then apply invert (apply l start timestamp x y) timestamp x y
    else apply l start timestamp x y.
Proof.
  intros erased l self start timestamp x y. simpl.
  unfold get_color. simpl. repeat split.
Qed.

(** X3: the inverted store returns [invert] applied, at the same
    timestamp and coordinates, to what the same store returns when it is
    not inverted; [special] moves between the two. *)
Theorem set_inverted_wraps_output : forall self start timestamp x y,
  fst (get_color invert start timestamp x y (with_inverted true self)) =
    apply invert
      (fst (get_color invert start timestamp x y (with_inverted false self)))
      timestamp x y /\
  special (with_inverted false self) = with_inverted true self /\
  special (with_inverted true self) = with_inverted false self.
Proof.
  intros self start timestamp x y. unfold get_color, special, with_inverted.
  simpl. destruct (layer self); repeat split.
Qed.
End SetLayerStoreFurther.

(** ** AdditiveLayerStore *)

Section AdditiveLayerStoreFurther.
Import AdditiveLayerStore Additive AdditiveCalls.

(** X4: between calls the scratch stack is empty, queue and stack have the
    capacity given at creation, a hundred times the catalogue's length,
    and the queue holds no more layers than that. *)
Theorem additive_store_invariant : forall get_layers self,
  reachable get_layers self ->
  ArrayStack.items (layer_stack self) = [] /\
  ArrayStack.capacity (layer_stack self) = length get_layers * 100 /\
  CircularQueue.capacity (layer_queue self) = length get_layers * 100 /\
  length (held self) <= length get_layers * 100.
Proof.
  intros get_layers self Hreach.
  destruct (reachable_settled Hreach) as (q & -> & Hq).
  repeat split. exact Hq.
Qed.

(** X5: on a store reached through method calls, [add] raises the queue's
    overflow error exactly when the queue holds as many layers as its
    capacity; otherwise it puts the layer at the tail and returns true.
    It never returns false. *)
Theorem additive_add_full_or_appends : forall get_layers self layer,
  reachable get_layers self ->
  add layer self =
    if length (held self) =? length get_layers * 100
    then Raise QueueFull
    else Ok (true, store (held self ++ [layer]) (length get_layers * 100)
                     [] (length get_layers * 100)).
Proof.
  intros get_layers self layer Hreach.
  destruct (reachable_settled Hreach) as (q & -> & _).
  apply add_store.
Qed.

(** X6: on a store reached through method calls, [get_color] never raises
    and never changes the store; it returns the left fold of the held
    layers, head first, over the start colour. *)
Theorem additive_get_color_reachable :
  forall get_layers self start timestamp x y,
  reachable get_layers self ->
  get_color start timestamp x y self =
    Ok (compose (held self) start timestamp x y, self).
Proof.
  intros get_layers self start timestamp x y Hreach.
  destruct (reachable_settled Hreach) as (q & -> & Hq).
  apply get_color_store. exact Hq.
Qed.

(** X7: [erase] between two [special] calls removes the layer added last:
    on a reached store whose queue ends with [newest], the three calls
    succeed and leave the older layers in their order. *)
Theorem additive_special_erase_special :
  forall get_layers self layer older newest,
  reachable get_layers self ->
  held self = older ++ [newest] ->
  exists self',
    (special ;;; erase layer ;;; special) self = Ok (tt, self') /\
    held self' = older /\
    reachable get_layers self'.
Proof.
  intros get_layers self layer older newest Hreach Hheld.
  destruct (reachable_settled Hreach) as (q & Hself & Hq).
  subst self. unfold held in Hheld. simpl in Hheld. subst q.
  set (cap := length get_layers * 100) in *.
  rewrite length_app in Hq. simpl in Hq.
  assert (H1 : special (store (older ++ [newest]) cap [] cap) =
               Ok (tt, store (newest :: rev older) cap [] cap)).
  { rewrite special_store by (rewrite length_app; simpl; lia).
    rewrite rev_app_distr. reflexivity. }
  assert (H2 : erase layer (store (newest :: rev older) cap [] cap) =
               Ok (true, store (rev older) cap [] cap))
    by apply erase_store.
  assert (H3 : special (store (rev older) cap [] cap) =
               Ok (tt, store older cap [] cap)).
  { rewrite special_store by (rewrite length_rev; lia).
    rewrite rev_involutive. reflexivity. }
  exists (store older cap [] cap). split; [|split].
  - unfold bind. rewrite H1, H2. exact H3.
  - reflexivity.
  - eapply reach_special; [|exact H3].
    eapply reach_erase; [|exact H2].
    eapply reach_special; [exact Hreach | exact H1].
Qed.

Lemma erase_times_store : forall layer k q qcap st scap,
  k <= length q ->
  erase_times k layer (store q qcap st scap) =
  Ok (tt, store (skipn k q) qcap st scap).
Proof.
  intros layer. induction k as [|k IH]; intros q qcap st scap Hk.
  - reflexivity.
  - destruct q as [|h q]; [simpl in Hk; lia|].
    simpl erase_times. unfold bind at 1. rewrite erase_store.
    simpl skipn. apply IH. simpl in Hk. lia.
Qed.

Lemma erase_times_underflow : forall layer q qcap st scap,
  erase_times (S (length q)) layer (store q qcap st scap) = Raise QueueEmpty.
Proof.
  intros layer. induction q as [|h q IH]; intros qcap st scap.
  - reflexivity.
  - change (S (length (h :: q))) with (S (S (length q))).
    remember (S (length q)) as n. simpl erase_times. unfold bind at 1.
    rewrite erase_store. subst n. apply IH.
Qed.

(** X8: layers leave in the order they came: after the layers of a list
    were added to a new store, [k] calls of [erase] leave the list without
    its first [k] layers, and one call more than there are layers raises
    the queue's underflow error. *)
Theorem additive_erase_first_in_first_out : forall get_layers layers layer k,
  length layers <= length get_layers * 100 ->
  k <= length layers ->
  (exists self,
     (add_all layers ;;; erase_times k layer) (init get_layers) =
       Ok (tt, self) /\
     held self = skipn k layers) /\
  (add_all layers ;;; erase_times (S (length layers)) layer) (init get_layers) =
    Raise QueueEmpty.
Proof.
  intros get_layers layers layer k Hlen Hk.
  set (cap := length get_layers * 100) in *.
  change (init get_layers) with (store [] cap [] cap).
  assert (Hadd : add_all layers (store [] cap [] cap) =
                 Ok (tt, store layers cap [] cap)).
  { rewrite add_all_store by (simpl; lia). reflexivity. }
  split.
  - exists (store (skipn k layers) cap [] cap). split; [|reflexivity].
    unfold bind. rewrite Hadd. apply erase_times_store. exact Hk.
  - unfold bind. rewrite Hadd. apply erase_times_underflow.
Qed.
End AdditiveLayerStoreFurther.

(** ** SequenceLayerStore *)

Section SequenceLayerStoreFurther.
Import SequenceLayerStore Sequence SequenceCalls.

Lemma clearbit_setbit : forall a n,
  N.testbit a n = false -> N.clearbit (N.setbit a n) n = a.
Proof.
  intros a n H. apply N.bits_inj. intro m.
  rewrite N.clearbit_eqb, N.setbit_eqb.
  destruct (N.eqb_spec n m) as [<-|_]; simpl.
  - symmetry. exact H.
  - apply andb_true_r.
Qed.

Lemma setbit_clearbit : forall a n,
  N.testbit a n = true -> N.setbit (N.clearbit a n) n = a.
Proof.
  intros a n H. apply N.bits_inj. intro m.
  rewrite N.setbit_eqb, N.clearbit_eqb.
  destruct (N.eqb_spec n m) as [<-|_]; simpl.
  - symmetry. exact H.
  - apply andb_true_r.
Qed.

(** X9: for a layer whose index lies in the bitset's universe, [add]
    followed by [erase] of a layer that was absent, and [erase] followed
    by [add] of a layer that was a member, both return true twice and give
    back the store exactly as it was. *)
Theorem sequence_add_erase_round_trip : forall layer self,
  index layer < BSet.capacity (layer_set self) ->
  if member (index layer) self
  then (erased <- erase layer ;; added <- add layer ;; ret (erased, added)) self
       = Ok ((true, true), self)
  else (added <- add layer ;; erased <- erase layer ;; ret (added, erased)) self
       = Ok ((true, true), self).
Proof.
  intros layer self Hin.
  destruct (member (index layer) self) eqn:Hm; unfold bind at 1.
  - rewrite erase_member by assumption. unfold bind at 1.
    rewrite add_fresh;
      [| exact Hin | rewrite member_clearbit, Nat.eqb_refl; reflexivity].
    unfold ret. destruct self as [[e c] sp ll]. unfold with_layer_set. simpl.
    unfold member in Hm. simpl in Hm.
    rewrite setbit_clearbit by exact Hm. reflexivity.
  - rewrite add_fresh by assumption. unfold bind at 1.
    rewrite erase_member;
      [| exact Hin | rewrite member_setbit, Nat.eqb_refl; reflexivity].
    unfold ret. destruct self as [[e c] sp ll]. unfold with_layer_set. simpl.
    unfold member in Hm. simpl in Hm.
    rewrite clearbit_setbit by exact Hm. reflexivity.
Qed.

Lemma filter_andb : forall (A : Type) (f g : A -> bool) (l : list A),
  filter (fun a => f a && g a) l = filter f (filter g l).
Proof.
  intros A f g. induction l as [|a l IH]; simpl; [reflexivity|].
  destruct (g a); simpl.
  - destruct (f a); simpl; rewrite IH; reflexivity.
  - rewrite andb_false_r. exact IH.
Qed.

Lemma ascending_nodup : forall l : list nat, StronglySorted lt l -> NoDup l.
Proof.
  induction l as [|a l IH]; intro H; [constructor|].
  inversion H as [|? ? Hs Hall]; subst. constructor; [|apply IH; exact Hs].
  intro Hin. rewrite Forall_forall in Hall. specialize (Hall a Hin). lia.
Qed.

(** Dropping the layers that carry one index of a list without repeated
    indices drops exactly one layer. *)
Lemma drop_index_length : forall (l : list Layer) removed,
  NoDup (map index l) -> In removed l ->
  S (length (filter (fun a => negb (index a =? index removed)) l)) = length l.
Proof.
  induction l as [|a l IH]; intros removed Hnd Hin; [contradiction|].
  simpl in Hnd. inversion Hnd as [|? ? Hnotin Hnd']; subst.
  simpl filter. destruct (Nat.eqb_spec (index a) (index removed)) as [E|E].
  - simpl. f_equal.
    assert (Hkeep : forall b, In b l ->
                      negb (index b =? index removed) = true).
    { intros b Hb. apply negb_true_iff, Nat.eqb_neq. intro Eb.
      apply Hnotin. rewrite E, <- Eb. apply in_map. exact Hb. }
    clear IH Hin Hnd Hnd' Hnotin. induction l as [|b l IHl]; [reflexivity|].
    simpl. rewrite Hkeep by (left; reflexivity). simpl. f_equal.
    apply IHl. intros c Hc. apply Hkeep. right. exact Hc.
  - simpl. f_equal. destruct Hin as [->|Hin]; [contradiction E; reflexivity|].
    apply IH; assumption.
Qed.

(** One [special] call on a store with members, over a catalogue whose
    layers sit at their index. *)
Lemma special_step : forall self,
  fits (BSet.capacity (layer_set self)) (layer_list self) = true ->
  indexed_from 0 (layer_list self) = true ->
  length (members self) <= 10000 ->
  members self <> [] ->
  exists self' removed,
    special self = Ok (tt, self') /\
    In removed (members self) /\
    layer_list self' = layer_list self /\
    BSet.capacity (layer_set self') = BSet.capacity (layer_set self) /\
    members self' =
      filter (fun l => negb (index l =? index removed)) (members self) /\
    S (length (members self')) = length (members self).
Proof.
  intros self Hfits Hindexed Hroom Hne.
  pose proof (special_ranked self Hfits Hroom) as Hspecial.
  destruct (nth_error (ranked self) (median_rank (length (ranked self))))
    as [item|] eqn:Hnth.
  - assert (Hin : In (value item) (members self)).
    { apply (Permutation_in _ (ranked_values self)).
      apply in_map. eapply nth_error_In. exact Hnth. }
    assert (Hmembers :
      members (with_layer_set self
                 {| BSet.elems :=
                      N.clearbit (BSet.elems (layer_set self))
                        (N.of_nat (index (value item)));
                    BSet.capacity := BSet.capacity (layer_set self) |}) =
      filter (fun l => negb (index l =? index (value item))) (members self)).
    { unfold members. cbn [layer_list with_layer_set].
      rewrite <- filter_andb. apply filter_ext. intro l.
      apply member_clearbit. }
    eexists. exists (value item).
    split; [exact Hspecial|]. split; [exact Hin|].
    split; [reflexivity|]. split; [reflexivity|].
    split; [exact Hmembers|].
    rewrite Hmembers. apply drop_index_length; [|exact Hin].
    apply ascending_nodup. unfold members.
    apply (selection_ascending _ _ 0 Hindexed).
  - apply nth_error_None in Hnth.
    pose proof (@median_rank_in_range (length (ranked self))) as Hlt.
    rewrite ranked_length in *.
    destruct (members self); [contradiction Hne; reflexivity | simpl in *; lia].
Qed.

(** X10: over a catalogue whose layers sit at their index and inside the
    bitset's universe, [special] on a store with members removes exactly
    one of them and leaves the others, in their order. *)
Theorem sequence_special_removes_one : forall self,
  fits (BSet.capacity (layer_set self)) (layer_list self) = true ->
  indexed_from 0 (layer_list self) = true ->
  length (members self) <= 10000 ->
  members self <> [] ->
  exists self' removed,
    special self = Ok (tt, self') /\
    In removed (members self) /\
    members self' =
      filter (fun l => negb (index l =? index removed)) (members self) /\
    S (length (members self')) = length (members self).
Proof.
  intros self Hfits Hindexed Hroom Hne.
  destruct (special_step self Hfits Hindexed Hroom Hne)
    as (self' & removed & H1 & H2 & _ & _ & H3 & H4).
  exists self', removed. repeat split; assumption.
Qed.

Lemma special_times_empties : forall n self,
  fits (BSet.capacity (layer_set self)) (layer_list self) = true ->
  indexed_from 0 (layer_list self) = true ->
  length (members self) = n ->
  n <= 10000 ->
  exists self',
    special_times n self = Ok (tt, self') /\ members self' = [] /\
    fits (BSet.capacity (layer_set self')) (layer_list self') = true.
Proof.
  induction n as [|n IH]; intros self Hfits Hindexed Hlen Hroom.
  - exists self. split; [reflexivity|]. split; [|exact Hfits].
    destruct (members self); [reflexivity | discriminate].
  - assert (Hne : members self <> [])
      by (intro E; rewrite E in Hlen; discriminate).
    assert (Hroom' : length (members self) <= 10000) by (rewrite Hlen; exact Hroom).
    destruct (special_step self Hfits Hindexed Hroom' Hne)
      as (mid & removed & Hsp & _ & Hll & Hcap & _ & Hcount).
    destruct (IH mid) as (self' & Hrest & Hempty & Hfits').
    + rewrite Hcap, Hll. exact Hfits.
    + rewrite Hll. exact Hindexed.
    + lia.
    + lia.
    + exists self'. split; [|split; assumption].
      simpl special_times. unfold bind at 1. rewrite Hsp. exact Hrest.
Qed.

(** X11: as many [special] calls as the store has members remove them
    all, and a further call changes nothing. *)
Theorem sequence_special_empties : forall self,
  fits (BSet.capacity (layer_set self)) (layer_list self) = true ->
  indexed_from 0 (layer_list self) = true ->
  length (members self) <= 10000 ->
  exists self',
    special_times (length (members self)) self = Ok (tt, self') /\
    members self' = [] /\
    special self' = Ok (tt, self').
Proof.
  intros self Hfits Hindexed Hroom.
  destruct (special_times_empties self Hfits Hindexed eq_refl Hroom)
    as (self' & Hrun & Hempty & Hfits').
  exists self'. split; [exact Hrun|]. split; [exact Hempty|].
  rewrite special_ranked; [| exact Hfits' | rewrite Hempty; apply Nat.le_0_l].
  unfold ranked. rewrite Hempty. reflexivity.
Qed.
End SequenceLayerStoreFurther.

(** ** UndoTracker *)

Section UndoTrackerFurther.
Import UndoTracker UndoCalls.
Variables PaintAction Grid : Type.
Variable undo_apply : PaintAction -> Grid -> result Grid.
Variable redo_apply : PaintAction -> Grid -> result Grid.

Lemma class_attrs_stacks : forall cls : class_attrs PaintAction,
  cls = stacks (ArrayStack.items (history_stack cls))
          (ArrayStack.capacity (history_stack cls))
          (ArrayStack.items (undo_stack cls))
          (ArrayStack.capacity (undo_stack cls)).
Proof. intros [[h hc] [u uc]]. reflexivity. Qed.

Lemma undo_on_stacks : forall self grid (history : list PaintAction)
                              hcap undone ucap,
  undo undo_apply self grid (stacks history hcap undone ucap) =
  match history with
  | [] => Ok ((None, grid), stacks history hcap undone ucap)
  | a :: rest =>
      if length undone =? ucap then Raise StackFull
      else match undo_apply a grid with
           | Ok grid' => Ok ((Some a, grid'), stacks rest hcap (a :: undone) ucap)
           | Raise e => Raise e
           end
  end.
Proof.
  intros self grid history hcap undone ucap.
  destruct history as [|a rest]; unfold undo, stacks;
    unfold bind, gets, ret, lift, history_pop, undo_push, ArrayStack.pop,
      ArrayStack.push, ArrayStack.is_full, ArrayStack.is_empty, ArrayStack.len;
    cbn [history_stack undo_stack ArrayStack.items ArrayStack.capacity
         length Nat.eqb]; [reflexivity|].
  destruct (length undone =? ucap); [reflexivity|].
  destruct (undo_apply a grid); reflexivity.
Qed.

Lemma redo_on_stacks : forall self grid (history : list PaintAction)
                              hcap undone ucap,
  redo redo_apply self grid (stacks history hcap undone ucap) =
  match undone with
  | [] => Ok ((None, grid), stacks history hcap undone ucap)
  | a :: rest =>
      if length history =? hcap then Raise StackFull
      else match redo_apply a grid with
           | Ok grid' => Ok ((Some a, grid'), stacks (a :: history) hcap rest ucap)
           | Raise e => Raise e
           end
  end.
Proof.
  intros self grid history hcap undone ucap.
  destruct undone as [|a rest]; unfold redo, stacks;
    unfold bind, gets, ret, lift, undo_pop, history_push, ArrayStack.pop,
      ArrayStack.push, ArrayStack.is_full, ArrayStack.is_empty, ArrayStack.len;
    cbn [history_stack undo_stack ArrayStack.items ArrayStack.capacity
         length Nat.eqb]; [reflexivity|].
  destruct (length history =? hcap); [reflexivity|].
  destruct (redo_apply a grid); reflexivity.
Qed.

(** X12: [add_action] raises the stack's overflow error when the history
    is full: its test of [is_full] does not leave the method.  Otherwise
    it pushes the action on the history, from which it pops nothing, and
    leaves the undo stack empty. *)
Theorem undo_tracker_add_action : forall self (action : PaintAction) cls,
  add_action self action cls =
    if ArrayStack.is_full (history_stack cls) then Raise StackFull
    else Ok (tt, stacks (action :: ArrayStack.items (history_stack cls))
                   (ArrayStack.capacity (history_stack cls))
                   []
                   (ArrayStack.capacity (undo_stack cls))).
Proof.
  intros self action cls. rewrite (class_attrs_stacks cls) at 1.
  apply add_action_stacks.
Qed.

(** X13: after [add_action] there is nothing to redo: [redo], on any
    tracker, returns [None] and changes neither the grid nor the stacks,
    whatever had been undone before. *)
Theorem undo_tracker_add_action_forgets_undone :
  forall t1 t2 (action : PaintAction) grid cls,
  ArrayStack.is_full (history_stack cls) = false ->
  exists cls1,
    add_action t1 action cls = Ok (tt, cls1) /\
    redo redo_apply t2 grid cls1 = Ok ((None, grid), cls1).
Proof.
  intros t1 t2 action grid cls Hfull.
  rewrite (class_attrs_stacks cls).
  unfold ArrayStack.is_full, ArrayStack.len in Hfull.
  rewrite add_action_stacks, Hfull.
  eexists. split; [reflexivity|]. apply redo_on_stacks.
Qed.

(** X14: [undo] followed by [redo], on any two trackers, returns the
    latest action twice and gives back both stacks as they were; the grid
    went through that action's [undo_apply] and then its [redo_apply]. *)
Theorem undo_tracker_undo_redo : forall t1 t2 grid cls (a : PaintAction) rest,
  ArrayStack.items (history_stack cls) = a :: rest ->
  length (ArrayStack.items (history_stack cls)) <=
    ArrayStack.capacity (history_stack cls) ->
  ArrayStack.is_full (undo_stack cls) = false ->
  (undone <- undo undo_apply t1 grid ;;
   redone <- redo redo_apply t2 (snd undone) ;;
   ret (fst undone, fst redone, snd redone)) cls =
  match undo_apply a grid with
  | Ok grid1 =>
      match redo_apply a grid1 with
      | Ok grid2 => Ok ((Some a, Some a, grid2), cls)
      | Raise e => Raise e
      end
  | Raise e => Raise e
  end.
Proof.
  intros t1 t2 grid [[history hcap] [undone ucap]] a rest Hitems Hroom Hfull.
  unfold ArrayStack.is_full, ArrayStack.len in Hfull.
  simpl in Hitems, Hroom, Hfull. subst history. simpl in Hroom.
  change {| history_stack := {| ArrayStack.items := a :: rest;
                                ArrayStack.capacity := hcap |};
            undo_stack := {| ArrayStack.items := undone;
                             ArrayStack.capacity := ucap |} |}
    with (stacks (a :: rest) hcap undone ucap).
  unfold bind at 1. rewrite undo_on_stacks, Hfull.
  destruct (undo_apply a grid) as [grid1|e]; [|reflexivity].
  unfold bind at 1. cbn [snd fst]. rewrite redo_on_stacks.
  destruct (length rest =? hcap) eqn:E.
  { apply Nat.eqb_eq in E. lia. }
  destruct (redo_apply a grid1); reflexivity.
Qed.

(** X15: [undo] and [redo] only move actions between the two stacks:
    whenever one of them returns, the actions in the order they were done,
    history first and undone actions after, are the same as before, and so
    are the capacities. *)
Theorem undo_tracker_timeline : forall self grid cls r cls',
  undo undo_apply self grid cls = Ok (r, cls') \/
  redo redo_apply self grid cls = Ok (r, cls') ->
  timeline cls' = timeline cls /\
  ArrayStack.capacity (history_stack cls') =
    ArrayStack.capacity (history_stack cls) /\
  ArrayStack.capacity (undo_stack cls') = ArrayStack.capacity (undo_stack cls).
Proof.
  intros self grid [[history hcap] [undone ucap]] r cls' H.
  change {| history_stack := {| ArrayStack.items := history;
                                ArrayStack.capacity := hcap |};
            undo_stack := {| ArrayStack.items := undone;
                             ArrayStack.capacity := ucap |} |}
    with (stacks history hcap undone ucap) in *.
  destruct H as [H|H].
  - rewrite undo_on_stacks in H. destruct history as [|a rest].
    + inversion H; subst. repeat split.
    + destruct (length undone =? ucap); [discriminate|].
      destruct (undo_apply a grid); [|discriminate].
      inversion H; subst. unfold timeline. simpl.
      rewrite <- app_assoc. repeat split.
  - rewrite redo_on_stacks in H. destruct undone as [|a rest].
    + inversion H; subst. repeat split.
    + destruct (length history =? hcap); [discriminate|].
      destruct (redo_apply a grid); [|discriminate].
      inversion H; subst. unfold timeline. simpl.
      rewrite <- app_assoc. repeat split.
Qed.
End UndoTrackerFurther.


(** ** ReplayTracker *)

Section ReplayTrackerFurther.
Import ReplayTracker ReplayCalls.
Variables PaintAction Grid : Type.
Variable undo_apply : PaintAction -> Grid -> result Grid.
Variable redo_apply : PaintAction -> Grid -> result Grid.

Lemma record_tracker : forall (entries : list (PaintAction * bool)) q cap,
  length q + length entries <= cap ->
  record entries (tracker q cap) =
  Ok (tt, tracker (q ++ map (@entry_of PaintAction) entries) cap).
Proof.
  induction entries as [|[a u] entries IH]; intros q cap Hroom.
  - simpl. rewrite app_nil_r. reflexivity.
  - simpl in Hroom. simpl record. unfold bind at 1.
    unfold add_action, tracker, CircularQueue.append, CircularQueue.is_full,
      CircularQueue.len.
    cbn [replay_queue CircularQueue.items CircularQueue.capacity].
    destruct (length q =? cap) eqn:E.
    { apply Nat.eqb_eq in E. lia. }
    fold (tracker (q ++ [{| action := a; is_undo := u |}]) cap).
    rewrite IH by (rewrite length_app; simpl; lia).
    simpl map. rewrite <- app_assoc. reflexivity.
Qed.

Lemma play_next_action_tracker : forall grid q cap,
  play_next_action undo_apply redo_apply grid (tracker q cap) =
  match q with
  | [] => Ok ((true, grid), tracker q cap)
  | e :: rest =>
      match (if is_undo e then undo_apply (action e) grid
             else redo_apply (action e) grid) with
      | Ok grid' => Ok ((false, grid'), tracker rest cap)
      | Raise err => Raise err
      end
  end.
Proof.
  intros grid q cap.
  destruct q as [|e rest]; unfold play_next_action, tracker;
    unfold bind, gets, ret, lift, queue_serve, CircularQueue.serve,
      CircularQueue.is_empty, CircularQueue.len, get_is_undo, get_action;
    cbn [replay_queue CircularQueue.items CircularQueue.capacity
         length Nat.eqb]; [reflexivity|].
  destruct (if is_undo e then undo_apply (action e) grid
            else redo_apply (action e) grid); reflexivity.
Qed.

Lemma play_times_tracker : forall (entries : list (PaintAction * bool)) grid cap,
  play_times undo_apply redo_apply (S (length entries)) grid
    (tracker (map (@entry_of PaintAction) entries) cap) =
  match replayed undo_apply redo_apply entries grid with
  | Ok grid' =>
      Ok ((repeat false (length entries) ++ [true], grid'), tracker [] cap)
  | Raise e => Raise e
  end.
Proof.
  induction entries as [|[a u] entries IH]; intros grid cap.
  - reflexivity.
  - change (length ((a, u) :: entries)) with (S (length entries)).
    remember (S (length entries)) as n.
    simpl play_times. unfold bind at 1.
    simpl map. rewrite play_next_action_tracker.
    cbn [entry_of is_undo action fst snd]. simpl replayed.
    destruct (if u then undo_apply a grid else redo_apply a grid)
      as [grid1|e]; [|reflexivity].
    unfold bind at 1. cbn [snd fst]. subst n. rewrite IH.
    destruct (replayed undo_apply redo_apply entries grid1); reflexivity.
Qed.

(** X16: replay is first in, first out: after up to 10000 actions were
    recorded on a new tracker, as many [play_next_action] calls apply them
    to the grid in the order recorded, [undo_apply] for the entries
    flagged as undo and [redo_apply] for the others, each returning false;
    the next call returns true and changes nothing, the tracker being
    empty again.  If an action raises, so does the replay. *)
Theorem replay_tracker_first_in_first_out :
  forall (entries : list (PaintAction * bool)) grid,
  length entries <= 10000 ->
  exists recorded,
    record entries (init PaintAction) = Ok (tt, recorded) /\
    play_times undo_apply redo_apply (S (length entries)) grid recorded =
      match replayed undo_apply redo_apply entries grid with
      | Ok grid' =>
          Ok ((repeat false (length entries) ++ [true], grid'),
              init PaintAction)
      | Raise e => Raise e
      end.
Proof.
  intros entries grid Hroom.
  exists (tracker (map (@entry_of PaintAction) entries) 10000). split.
  - change (init PaintAction) with (@tracker PaintAction [] 10000).
    rewrite record_tracker by (simpl; exact Hroom). reflexivity.
  - apply play_times_tracker.
Qed.
End ReplayTrackerFurther.

(** ** Grid *)

Section GridFurther.
Import Grid GridCalls.

Lemma brush_keeps_range : forall c g,
  brush_in_range g ->
  brush_in_range (brush c g) /\ grid (brush c g) = grid g /\
  draw_style (brush c g) = draw_style g /\
  x_size (brush c g) = x_size g /\ y_size (brush c g) = y_size g.
Proof.
  intros c g. unfold brush_in_range, MIN_BRUSH, MAX_BRUSH. intro H.
  destruct c; simpl; unfold increase_brush_size, decrease_brush_size,
    MIN_BRUSH, MAX_BRUSH.
  - destruct (Z.ltb_spec (brush_size g) 5); simpl; repeat split; lia.
  - destruct (Z.gtb_spec (brush_size g) 0); simpl; repeat split; lia.
Qed.

(** X17: whatever sequence of [increase_brush_size] and
    [decrease_brush_size] calls a grid goes through, a brush size that was
    between [MIN_BRUSH] and [MAX_BRUSH] stays there, and the calls touch
    nothing but the brush size. *)
Theorem grid_brush_size_stays_in_range : forall calls g,
  brush_in_range g ->
  brush_in_range (brush_all calls g) /\
  grid (brush_all calls g) = grid g /\
  draw_style (brush_all calls g) = draw_style g /\
  x_size (brush_all calls g) = x_size g /\
  y_size (brush_all calls g) = y_size g.
Proof.
  unfold brush_all.
  induction calls as [|c calls IH]; intros g H; simpl.
  - split; [exact H | repeat split].
  - destruct (brush_keeps_range c H) as (Hr & Hg & Hd & Hx & Hy).
    destruct (IH (brush c g) Hr) as (Hr' & Hg' & Hd' & Hx' & Hy').
    split; [exact Hr' | repeat split; congruence].
Qed.

(** X18: for a brush size in range, [decrease_brush_size] undoes
    [increase_brush_size] unless the size was [MAX_BRUSH], where the
    increase does nothing; [increase_brush_size] undoes
    [decrease_brush_size] unless the size was [MIN_BRUSH], where the
    decrease does nothing. *)
Theorem grid_brush_size_round_trip : forall g,
  brush_in_range g ->
  (if (brush_size g =? MAX_BRUSH)%Z
   then increase_brush_size g = g
   else decrease_brush_size (increase_brush_size g) = g) /\
  (if (brush_size g =? MIN_BRUSH)%Z
   then decrease_brush_size g = g
   else increase_brush_size (decrease_brush_size g) = g).
Proof.
  intros [style x y rows b]. unfold brush_in_range, MIN_BRUSH, MAX_BRUSH.
  simpl. intro H. split.
  - destruct (Z.eqb_spec b 5) as [->|Hne].
    + reflexivity.
    + unfold increase_brush_size, MAX_BRUSH. simpl.
      destruct (Z.ltb_spec b 5); [|lia].
      unfold decrease_brush_size, with_brush_size, MIN_BRUSH. simpl.
      destruct (Z.gtb_spec (b + 1) 0); [|lia].
      f_equal. lia.
  - destruct (Z.eqb_spec b 0) as [->|Hne].
    + reflexivity.
    + unfold decrease_brush_size, MIN_BRUSH. simpl.
      destruct (Z.gtb_spec b 0); [|lia].
      unfold increase_brush_size, with_brush_size, MAX_BRUSH. simpl.
      destruct (Z.ltb_spec (b - 1) 5); [|lia].
      f_equal. lia.
Qed.

Lemma toggle_square_twice : forall square,
  toggle_square (toggle_square square) = square.
Proof.
  intros [[s|s|s]|]; simpl; try reflexivity.
  rewrite special_special. reflexivity.
Qed.

Lemma row_special_set : forall row,
  forallb (fun square => match square with
                         | Some (SetStore _) => true
                         | _ => false
                         end) row = true ->
  row_special row = inl (map toggle_square row) /\
  forallb (fun square => match square with
                         | Some (SetStore _) => true
                         | _ => false
                         end) (map toggle_square row) = true.
Proof.
  induction row as [|square row IH]; intro H; simpl in *.
  - split; reflexivity.
  - apply andb_true_iff in H. destruct H as [Hs Hrow].
    destruct (IH Hrow) as [IH1 IH2].
    destruct square as [[s|s|s]|]; try discriminate.
    simpl. rewrite IH1. split; [reflexivity | exact IH2].
Qed.

Lemma rows_special_set : forall rows,
  forallb (forallb (fun square => match square with
                                  | Some (SetStore _) => true
                                  | _ => false
                                  end)) rows = true ->
  rows_special rows = inl (map (map toggle_square) rows) /\
  forallb (forallb (fun square => match square with
                                  | Some (SetStore _) => true
                                  | _ => false
                                  end)) (map (map toggle_square) rows) = true.
Proof.
  induction rows as [|row rows IH]; intro H; simpl in *.
  - split; reflexivity.
  - apply andb_true_iff in H. destruct H as [Hrow Hrows].
    destruct (row_special_set row Hrow) as [R1 R2].
    destruct (IH Hrows) as [IH1 IH2].
    rewrite R1, IH1, R2, IH2. split; reflexivity.
Qed.

(** X19: on a grid whose squares all hold Set stores, [special] succeeds
    and calls [special] on the store of every square, leaving the rest of
    the grid alone; a second call gives back the grid as it was. *)
Theorem grid_special_set_twice : forall g,
  all_set g = true ->
  special g = inl (with_grid g (map (map toggle_square) (grid g))) /\
  special (with_grid g (map (map toggle_square) (grid g))) = inl g.
Proof.
  intros [style x y rows b]. unfold all_set. simpl. intro H.
  destruct (rows_special_set rows H) as [H1 H2].
  destruct (rows_special_set _ H2) as [H3 _].
  unfold special, with_grid. simpl. rewrite H1, H3. split; [reflexivity|].
  do 2 f_equal. rewrite map_map.
  rewrite <- (map_id rows) at 2. apply map_ext. intro row.
  rewrite map_map. rewrite <- (map_id row) at 2. apply map_ext.
  apply toggle_square_twice.
Qed.

Lemma row_special_shape : forall row row',
  row_special row = inl row' -> length row' = length row.
Proof.
  induction row as [|square row IH]; intros row' H; simpl in H.
  - inversion H. reflexivity.
  - destruct (square_special square); [|discriminate].
    destruct (row_special row) as [rest|]; [|discriminate].
    inversion H. simpl. f_equal. apply IH. reflexivity.
Qed.

Lemma rows_special_shape : forall rows rows',
  rows_special rows = inl rows' ->
  map (@length _) rows' = map (@length _) rows.
Proof.
  induction rows as [|row rows IH]; intros rows' H; simpl in H.
  - inversion H. reflexivity.
  - destruct (row_special row) as [row1|] eqn:R; [|discriminate].
    destruct (rows_special rows) as [rest|]; [|discriminate].
    inversion H. simpl. f_equal.
    + apply row_special_shape. exact R.
    + apply IH. reflexivity.
Qed.

(** X20: when [special] returns, the grid has the rows and row lengths it
    had, and the same draw style, sizes and brush size. *)
Theorem grid_special_keeps_shape : forall g g',
  special g = inl g' ->
  map (@length _) (grid g') = map (@length _) (grid g) /\
  draw_style g' = draw_style g /\
  x_size g' = x_size g /\ y_size g' = y_size g /\
  brush_size g' = brush_size g.
Proof.
  intros g g'. unfold special.
  destruct (rows_special (grid g)) as [rows|] eqn:R; [|discriminate].
  intro H. inversion H; subst. simpl.
  split; [apply rows_special_shape; exact R | repeat split].
Qed.

Lemma row_special_repeat : forall (A : Type) (l : list A) square square',
  square_special square = inl square' ->
  row_special (map (fun _ => square) l) = inl (map (fun _ => square') l).
Proof.
  intros A l square square' H. induction l as [|a l IH]; simpl.
  - reflexivity.
  - rewrite H, IH. reflexivity.
Qed.

Lemma rows_special_repeat : forall (A : Type) (l : list A) row row',
  row_special row = inl row' ->
  rows_special (map (fun _ => row) l) = inl (map (fun _ => row') l).
Proof.
  intros A l row row' H. induction l as [|a l IH]; simpl.
  - reflexivity.
  - rewrite H, IH. reflexivity.
Qed.

Lemma special_new_grid : forall get_layers style x y square',
  square_special (new_square get_layers style) = inl square' ->
  special (init get_layers style x y) =
  inl (with_grid (init get_layers style x y)
         (map (fun _ => map (fun _ => square') (seq 0 y)) (seq 0 x))).
Proof.
  intros get_layers style x y square' H. unfold special, init. simpl.
  rewrite (@rows_special_repeat nat (seq 0 x) _ _
             (@row_special_repeat nat (seq 0 y) _ _ H)).
  reflexivity.
Qed.

(** X21: [special] on a grid just created with at least one row and one
    column: with the SET style every square's store becomes inverted;
    with the ADD style, and with the SEQUENCE style over a catalogue
    whose indices lie in the bitset's universe, nothing raises and the
    grid stays as it was. *)
Theorem grid_special_on_new_grid : forall get_layers x y,
  0 < x -> 0 < y ->
  fits 9 get_layers = true ->
  special (init get_layers DRAW_STYLE_SET x y) =
    inl (with_grid (init get_layers DRAW_STYLE_SET x y)
           (map (fun _ =>
                   map (fun _ =>
                          Some (SetStore
                                  (SetStoreCalls.with_inverted true
                                     SetLayerStore.init)))
                     (seq 0 y))
              (seq 0 x))) /\
  special (init get_layers DRAW_STYLE_ADD x y) =
    inl (init get_layers DRAW_STYLE_ADD x y) /\
  special (init get_layers DRAW_STYLE_SEQUENCE x y) =
    inl (init get_layers DRAW_STYLE_SEQUENCE x y).
Proof.
  intros get_layers x y _ _ Hfits. split; [|split].
  - apply special_new_grid. reflexivity.
  - rewrite special_new_grid
      with (square' := Some (AdditiveStore (AdditiveLayerStore.init get_layers))).
    + reflexivity.
    + change (new_square get_layers DRAW_STYLE_ADD)
        with (Some (AdditiveStore (AdditiveLayerStore.init get_layers))).
      unfold square_special.
      change (AdditiveLayerStore.init get_layers)
        with (Additive.store [] (length get_layers * 100) []
                (length get_layers * 100)).
      rewrite special_store by (simpl; lia). reflexivity.
  - rewrite special_new_grid
      with (square' := Some (SequenceStore (SequenceLayerStore.init get_layers))).
    + reflexivity.
    + change (new_square get_layers DRAW_STYLE_SEQUENCE)
        with (Some (SequenceStore (SequenceLayerStore.init get_layers))).
      unfold square_special.
      assert (Hnone : Sequence.members (SequenceLayerStore.init get_layers) = []).
      { unfold Sequence.members, Sequence.member. simpl.
        induction (registered get_layers) as [|l ls IH]; [reflexivity|].
        simpl. exact IH. }
      rewrite special_ranked;
        [| exact Hfits | rewrite Hnone; apply Nat.le_0_l].
      unfold Sequence.ranked. rewrite Hnone. reflexivity.
Qed.
End GridFurther.

(** ** The further theorems at concrete inputs *)

Lemma red_darken_reachable :
  Additive.reachable paint_catalogue
    (Additive.store [red_layer; darken_layer] 400 [] 400).
Proof.
  apply Additive.reach_add with (layer := darken_layer) (b := true)
    (self := Additive.store [red_layer] 400 [] 400);
    [apply Additive.reach_add with (layer := red_layer) (b := true)
       (self := AdditiveLayerStore.init paint_catalogue);
       [apply Additive.reach_init | reflexivity]
    | reflexivity].
Qed.

Lemma additive_store_invariant_witness :
  let self := Additive.store [red_layer; darken_layer] 400 [] 400 in
  ArrayStack.items (AdditiveLayerStore.layer_stack self) = [] /\
  length (Additive.held self) <= length paint_catalogue * 100.
Proof.
  intro self.
  destruct (@additive_store_invariant paint_catalogue self red_darken_reachable)
    as (Hstack & _ & _ & Hlen).
  split; [exact Hstack | exact Hlen].
Defined.

Lemma additive_add_full_or_appends_witness :
  AdditiveLayerStore.add invert_layer
    (Additive.store [red_layer; darken_layer] 400 [] 400) =
  Ok (true, Additive.store [red_layer; darken_layer; invert_layer] 400 [] 400).
Proof.
  exact (@additive_add_full_or_appends paint_catalogue _ invert_layer
           red_darken_reachable).
Defined.

Lemma additive_get_color_reachable_witness :
  AdditiveLayerStore.get_color (10, 20, 30)%Z 0 0 0
    (Additive.store [red_layer; darken_layer] 400 [] 400) =
  Ok ((127, 0, 0)%Z, Additive.store [red_layer; darken_layer] 400 [] 400).
Proof.
  exact (@additive_get_color_reachable paint_catalogue _ (10, 20, 30)%Z
           0%Z 0%Z 0%Z red_darken_reachable).
Defined.

Lemma additive_special_erase_special_witness :
  exists self',
    (bind AdditiveLayerStore.special
       (fun _ => bind (AdditiveLayerStore.erase invert_layer)
                   (fun _ => AdditiveLayerStore.special)))
      (Additive.store [red_layer; darken_layer] 400 [] 400) = Ok (tt, self') /\
    Additive.held self' = [red_layer].
Proof.
  destruct (@additive_special_erase_special paint_catalogue
              (Additive.store [red_layer; darken_layer] 400 [] 400)
              invert_layer [red_layer] darken_layer
              red_darken_reachable eq_refl)
    as (self' & Hrun & Hheld & _).
  exists self'. split; [exact Hrun | exact Hheld].
Defined.

Lemma additive_erase_first_in_first_out_witness :
  exists self,
    (bind (Additive.add_all [red_layer; darken_layer; invert_layer])
       (fun _ => AdditiveCalls.erase_times 2 red_layer))
      (AdditiveLayerStore.init paint_catalogue) = Ok (tt, self) /\
    Additive.held self = [invert_layer].
Proof.
  assert (Hlen : length [red_layer; darken_layer; invert_layer] <=
                 length paint_catalogue * 100) by (simpl; lia).
  assert (Hk : 2 <= length [red_layer; darken_layer; invert_layer])
    by (simpl; lia).
  exact (proj1 (@additive_erase_first_in_first_out paint_catalogue
                  [red_layer; darken_layer; invert_layer] red_layer 2
                  Hlen Hk)).
Defined.

Lemma sequence_add_erase_round_trip_witness :
  let self := fruit_store [Sequence.Add apple] in
  (bind (SequenceLayerStore.add cherry)
     (fun added => bind (SequenceLayerStore.erase cherry)
                     (fun erased => ret (added, erased)))) self =
  Ok ((true, true), self).
Proof.
  intro self.
  assert (Hin : index cherry < BSet.capacity (SequenceLayerStore.layer_set self))
    by (simpl; lia).
  exact (@sequence_add_erase_round_trip cherry self Hin).
Defined.

Lemma sequence_special_removes_one_witness :
  let five :=
    fruit_store [Sequence.Add apple; Sequence.Add banana; Sequence.Add cherry;
                 Sequence.Add date; Sequence.Add egg] in
  exists five' removed,
    SequenceLayerStore.special five = Ok (tt, five') /\
    In removed (Sequence.members five) /\
    S (length (Sequence.members five')) = 5.
Proof.
  intro five.
  assert (Hfits : fits (BSet.capacity (SequenceLayerStore.layer_set five))
                    (SequenceLayerStore.layer_list five) = true)
    by reflexivity.
  assert (Hindexed : indexed_from 0 (SequenceLayerStore.layer_list five) = true)
    by reflexivity.
  assert (Hroom : length (Sequence.members five) <= 10000).
  { apply Nat.leb_le. vm_compute. reflexivity. }
  assert (Hne : Sequence.members five <> []).
  { intro H. vm_compute in H. discriminate H. }
  destruct (@sequence_special_removes_one five Hfits Hindexed Hroom Hne)
    as (five' & removed & Hspecial & Hin & _ & Hcount).
  exists five', removed.
  split; [exact Hspecial|]. split; [exact Hin | exact Hcount].
Defined.

Lemma sequence_special_empties_witness :
  let three :=
    fruit_store [Sequence.Add apple; Sequence.Add date; Sequence.Add egg] in
  exists none,
    SequenceCalls.special_times 3 three = Ok (tt, none) /\
    Sequence.members none = [].
Proof.
  intro three.
  assert (Hfits : fits (BSet.capacity (SequenceLayerStore.layer_set three))
                    (SequenceLayerStore.layer_list three) = true)
    by reflexivity.
  assert (Hindexed : indexed_from 0 (SequenceLayerStore.layer_list three) = true)
    by reflexivity.
  assert (Hroom : length (Sequence.members three) <= 10000).
  { apply Nat.leb_le. vm_compute. reflexivity. }
  destruct (@sequence_special_empties three Hfits Hindexed Hroom)
    as (none & Hrun & Hempty & _).
  exists none. split; [exact Hrun | exact Hempty].
Defined.

Lemma undo_tracker_add_action_forgets_undone_witness :
  let redo_apply := fun (action : nat) (grid : list nat) => Ok (action :: grid) in
  exists cls1,
    UndoTracker.add_action {| UndoTracker.ident := 1 |} 9
      (UndoTracker.stacks [4] 10000 [5; 6] 10000) = Ok (tt, cls1) /\
    UndoTracker.redo redo_apply {| UndoTracker.ident := 2 |} [] cls1 =
      Ok ((None, []), cls1).
Proof.
  intro redo_apply.
  assert (Hfull : ArrayStack.is_full
                    (UndoTracker.history_stack
                       (UndoTracker.stacks [4] 10000 [5; 6] 10000)) = false)
    by (vm_compute; reflexivity).
  exact (@undo_tracker_add_action_forgets_undone nat (list nat) redo_apply
           {| UndoTracker.ident := 1 |} {| UndoTracker.ident := 2 |} 9 []
           (UndoTracker.stacks [4] 10000 [5; 6] 10000) Hfull).
Defined.

Lemma undo_tracker_undo_redo_witness :
  let undo_apply := fun (action : nat) (grid : list nat) => Ok (tl grid) in
  let redo_apply := fun (action : nat) (grid : list nat) => Ok (action :: grid) in
  let cls := UndoTracker.stacks [7; 3] 10000 [] 10000 in
  (bind (UndoTracker.undo undo_apply {| UndoTracker.ident := 1 |} [7; 3])
     (fun undone =>
        bind (UndoTracker.redo redo_apply {| UndoTracker.ident := 2 |}
                (snd undone))
          (fun redone => ret (fst undone, fst redone, snd redone)))) cls =
  Ok ((Some 7, Some 7, [7; 3]), cls).
Proof.
  intros undo_apply redo_apply cls.
  assert (Hroom : length (ArrayStack.items (UndoTracker.history_stack cls)) <=
                  ArrayStack.capacity (UndoTracker.history_stack cls)).
  { apply Nat.leb_le. vm_compute. reflexivity. }
  assert (Hfull : ArrayStack.is_full (UndoTracker.undo_stack cls) = false)
    by (vm_compute; reflexivity).
  exact (@undo_tracker_undo_redo nat (list nat) undo_apply redo_apply
           {| UndoTracker.ident := 1 |} {| UndoTracker.ident := 2 |} [7; 3]
           cls 7 [3] eq_refl Hroom Hfull).
Defined.

Lemma undo_tracker_timeline_witness :
  let undo_apply := fun (action : nat) (grid : list nat) => Ok (tl grid) in
  let redo_apply := fun (action : nat) (grid : list nat) => Ok (action :: grid) in
  UndoTracker.undo undo_apply {| UndoTracker.ident := 1 |} [7; 3]
    (UndoTracker.stacks [7; 3] 10000 [] 10000) =
    Ok ((Some 7, [3]), UndoTracker.stacks [3] 10000 [7] 10000) /\
  UndoCalls.timeline (UndoTracker.stacks [3] 10000 [7] 10000) =
  UndoCalls.timeline (UndoTracker.stacks [7; 3] 10000 [] 10000).
Proof.
  intros undo_apply redo_apply.
  assert (Hundo : UndoTracker.undo undo_apply {| UndoTracker.ident := 1 |} [7; 3]
                    (UndoTracker.stacks [7; 3] 10000 [] 10000) =
                  Ok ((Some 7, [3]), UndoTracker.stacks [3] 10000 [7] 10000))
    by (vm_compute; reflexivity).
  split; [exact Hundo|].
  exact (proj1 (@undo_tracker_timeline nat (list nat) undo_apply redo_apply
                  {| UndoTracker.ident := 1 |} [7; 3] _ _ _
                  (or_introl Hundo))).
Defined.

Lemma replay_tracker_first_in_first_out_witness :
  let undo_apply := fun (action : nat) (grid : list nat) => Ok (tl grid) in
  let redo_apply := fun (action : nat) (grid : list nat) => Ok (action :: grid) in
  exists recorded,
    ReplayCalls.record [(1, false); (2, false); (2, true)]
      (ReplayTracker.init nat) = Ok (tt, recorded) /\
    ReplayCalls.play_times undo_apply redo_apply 4 [] recorded =
      Ok (([false; false; false; true], [1]), ReplayTracker.init nat).
Proof.
  intros undo_apply redo_apply.
  assert (Hroom : length [(1, false); (2, false); (2, true)] <= 10000).
  { apply Nat.leb_le. vm_compute. reflexivity. }
  exact (@replay_tracker_first_in_first_out nat (list nat) undo_apply redo_apply
           [(1, false); (2, false); (2, true)] [] Hroom).
Defined.

Lemma grid_brush_size_stays_in_range_witness :
  let g := Grid.init paint_catalogue Grid.DRAW_STYLE_SET 2 2 in
  GridCalls.brush_in_range g /\
  GridCalls.brush_in_range
    (GridCalls.brush_all
       [GridCalls.Increase; GridCalls.Increase; GridCalls.Increase;
        GridCalls.Increase; GridCalls.Decrease] g).
Proof.
  intro g.
  assert (H : GridCalls.brush_in_range g).
  { unfold GridCalls.brush_in_range, Grid.MIN_BRUSH, Grid.MAX_BRUSH. simpl.
    unfold Grid.DEFAULT_BRUSH_SIZE. lia. }
  split; [exact H|].
  exact (proj1 (@grid_brush_size_stays_in_range _ g H)).
Defined.

Lemma grid_brush_size_round_trip_witness :
  let g := Grid.init paint_catalogue Grid.DRAW_STYLE_SET 2 2 in
  Grid.decrease_brush_size (Grid.increase_brush_size g) = g /\
  Grid.increase_brush_size (Grid.decrease_brush_size g) = g.
Proof.
  intro g.
  assert (H : GridCalls.brush_in_range g).
  { unfold GridCalls.brush_in_range, Grid.MIN_BRUSH, Grid.MAX_BRUSH. simpl.
    unfold Grid.DEFAULT_BRUSH_SIZE. lia. }
  exact (@grid_brush_size_round_trip g H).
Defined.

Lemma grid_special_set_twice_witness :
  let g := Grid.init paint_catalogue Grid.DRAW_STYLE_SET 2 3 in
  GridCalls.all_set g = true /\
  Grid.special
    (GridCalls.with_grid g (map (map GridCalls.toggle_square) (Grid.grid g))) =
  inl g.
Proof.
  intro g.
  assert (H : GridCalls.all_set g = true) by reflexivity.
  split; [exact H|].
  exact (proj2 (@grid_special_set_twice g H)).
Defined.

Lemma grid_special_keeps_shape_witness :
  let g := Grid.init paint_catalogue Grid.DRAW_STYLE_ADD 2 3 in
  Grid.special g = inl g /\
  map (@length _) (Grid.grid g) = [3; 3].
Proof.
  intro g.
  assert (H : Grid.special g = inl g) by (vm_compute; reflexivity).
  split; [exact H|].
  exact (proj1 (@grid_special_keeps_shape g g H)).
Defined.

Lemma grid_special_on_new_grid_witness :
  Grid.special (Grid.init paint_catalogue Grid.DRAW_STYLE_SEQUENCE 2 3) =
  inl (Grid.init paint_catalogue Grid.DRAW_STYLE_SEQUENCE 2 3).
Proof.
  assert (Hx : 0 < 2) by lia.
  assert (Hy : 0 < 3) by lia.
  assert (Hfits : fits 9 paint_catalogue = true) by reflexivity.
  exact (proj2 (proj2 (@grid_special_on_new_grid paint_catalogue 2 3
                         Hx Hy Hfits))).
Defined.
